(** * Samsung LH55BECHLGFXGO display controller: MDC codec, session and
      command execution

    A shallow embedding of [SamsungLH55BECHLGFXGOController] from
    [clean_video_wall_system.py]: the MDC packet codec
    ([_create_mdc_packet], [_parse_mdc_response]), the connection
    lifecycle ([connect], [disconnect]), the retrying command executor
    ([send_command]), the setters and queries built on it, and
    [health_check].

    Conventions.
    - A Python [bytes] value is a [list byte]; a Python [int] is a [Z].
    - A raised exception is an explicit outcome: [None] for [struct.error]
      in the codec, a dedicated constructor for the outcomes of the asyncio
      stream operations.
    - The asyncio streams and the clock are an interface ([Transport]); the
      controller object, the world behind the interface and the list of
      I/O events performed so far are threaded through every method.
    - Of the [logger] calls only the two warnings on the response path
      are recorded (checksum mismatch, failed command); the other log
      lines carry no state.
    - The fields [ip], [port], [specs] and the two timeouts of the
      controller, and the identity and content fields of [DisplayStatus],
      are never read or written by the methods below and are left out. *)

From Stdlib Require Import ZArith List Lia Bool String Ascii Strings.Byte
  DecimalString.
Import ListNotations.
Open Scope Z_scope.

(** ** Bytes and [struct] *)

Definition bytes := list byte.

(** The integer a byte stands for, as indexing or unpacking a [bytes]
    value gives it. *)
Definition byte_val (b : byte) : Z := Z.of_N (Byte.to_N b).

(** [struct.pack('B', v)]: [None] is [struct.error] (value out of range). *)
Definition pack_B (v : Z) : option byte :=
  if (0 <=? v) && (v <=? 255) then Byte.of_N (Z.to_N v) else None.

(** [sum(data)] *)
Definition sum_bytes (data : bytes) : Z :=
  fold_right (fun b acc => byte_val b + acc) 0 data.

(** [str(n)] for an integer. *)
Definition str_of_Z (n : Z) : string := NilZero.string_of_int (Z.to_int n).

(** ** Enumerations *)

Inductive MDCCommand :=
| POWER | POWER_STATUS
| VOLUME | MUTE | SOUND_MODE
| INPUT_SOURCE | PICTURE_MODE | PICTURE_SIZE | CONTRAST | BRIGHTNESS
| SHARPNESS | COLOR
| SAFETY_LOCK | PANEL_LOCK | AUTO_ADJUSTMENT | RESET
| SERIAL_NUMBER | SOFTWARE_VERSION | MODEL_NUMBER | CURRENT_TEMP
| VIDEO_WALL_MODE | VIDEO_WALL_ON
| CLOCK_SET | TIMER_1 | TIMER_2 | TIMER_3
| NETWORK_CONFIG
| LOGO_DISPLAY | POWER_ON_DELAY | POWER_OFF_DELAY | OSD_DISPLAY.

Module MDC.
Definition value (c : MDCCommand) : Z :=
    match c with
    | POWER => 0x11 | POWER_STATUS => 0xF1
    | VOLUME => 0x12 | MUTE => 0x13 | SOUND_MODE => 0x16
    | INPUT_SOURCE => 0x14 | PICTURE_MODE => 0x15 | PICTURE_SIZE => 0x18
    | CONTRAST => 0x22 | BRIGHTNESS => 0x23 | SHARPNESS => 0x24
    | COLOR => 0x25
    | SAFETY_LOCK => 0x17 | PANEL_LOCK => 0x21 | AUTO_ADJUSTMENT => 0x19
    | RESET => 0x2A
    | SERIAL_NUMBER => 0x2C | SOFTWARE_VERSION => 0x2D
    | MODEL_NUMBER => 0x2E | CURRENT_TEMP => 0x2B
    | VIDEO_WALL_MODE => 0x84 | VIDEO_WALL_ON => 0x89
    | CLOCK_SET => 0x30 | TIMER_1 => 0x36 | TIMER_2 => 0x37
    | TIMER_3 => 0x38
    | NETWORK_CONFIG => 0x3A
    | LOGO_DISPLAY => 0x1C | POWER_ON_DELAY => 0x1D
    | POWER_OFF_DELAY => 0x1E | OSD_DISPLAY => 0x3B
    end.

Definition name (c : MDCCommand) : string :=
    match c with
    | POWER => "POWER" | POWER_STATUS => "POWER_STATUS"
    | VOLUME => "VOLUME" | MUTE => "MUTE" | SOUND_MODE => "SOUND_MODE"
    | INPUT_SOURCE => "INPUT_SOURCE" | PICTURE_MODE => "PICTURE_MODE"
    | PICTURE_SIZE => "PICTURE_SIZE" | CONTRAST => "CONTRAST"
    | BRIGHTNESS => "BRIGHTNESS" | SHARPNESS => "SHARPNESS"
    | COLOR => "COLOR"
    | SAFETY_LOCK => "SAFETY_LOCK" | PANEL_LOCK => "PANEL_LOCK"
    | AUTO_ADJUSTMENT => "AUTO_ADJUSTMENT" | RESET => "RESET"
    | SERIAL_NUMBER => "SERIAL_NUMBER"
    | SOFTWARE_VERSION => "SOFTWARE_VERSION"
    | MODEL_NUMBER => "MODEL_NUMBER" | CURRENT_TEMP => "CURRENT_TEMP"
    | VIDEO_WALL_MODE => "VIDEO_WALL_MODE"
    | VIDEO_WALL_ON => "VIDEO_WALL_ON"
    | CLOCK_SET => "CLOCK_SET" | TIMER_1 => "TIMER_1"
    | TIMER_2 => "TIMER_2" | TIMER_3 => "TIMER_3"
    | NETWORK_CONFIG => "NETWORK_CONFIG"
    | LOGO_DISPLAY => "LOGO_DISPLAY" | POWER_ON_DELAY => "POWER_ON_DELAY"
    | POWER_OFF_DELAY => "POWER_OFF_DELAY" | OSD_DISPLAY => "OSD_DISPLAY"
    end%string.
End MDC.

Inductive InputSource :=
| HDMI1 | HDMI2 | DVI | DISPLAY_PORT | RGB | COMPONENT | COMPOSITE | USB.

Module Input.
Definition value (s : InputSource) : Z :=
    match s with
    | HDMI1 => 0x21 | HDMI2 => 0x23 | DVI => 0x18 | DISPLAY_PORT => 0x25
    | RGB => 0x14 | COMPONENT => 0x08 | COMPOSITE => 0x0C | USB => 0x60
    end.

Definition name (s : InputSource) : string :=
    match s with
    | HDMI1 => "HDMI1" | HDMI2 => "HDMI2" | DVI => "DVI"
    | DISPLAY_PORT => "DISPLAY_PORT" | RGB => "RGB"
    | COMPONENT => "COMPONENT" | COMPOSITE => "COMPOSITE" | USB => "USB"
    end%string.
End Input.

Inductive PowerState := OFF | ON.

Module Power.
Definition value (p : PowerState) : Z :=
    match p with OFF => 0x00 | ON => 0x01 end.
End Power.

Inductive PictureMode := STANDARD | MOVIE | DYNAMIC | NATURAL | CALIBRATED.

Module Picture.
Definition value (m : PictureMode) : Z :=
    match m with
    | STANDARD => 0x00 | MOVIE => 0x01 | DYNAMIC => 0x02
    | NATURAL => 0x03 | CALIBRATED => 0x04
    end.

Definition name (m : PictureMode) : string :=
    match m with
    | STANDARD => "STANDARD" | MOVIE => "MOVIE" | DYNAMIC => "DYNAMIC"
    | NATURAL => "NATURAL" | CALIBRATED => "CALIBRATED"
    end%string.
End Picture.

(** ** Display status and controller object *)

(** [datetime.now()] values are opaque instants. *)
Definition timestamp := Z.

Record DisplayStatus := {
  online : bool;
  responsive : bool;
  last_seen : option timestamp;
  error_count : Z;
  power : bool;
  volume : Z;
  muted : bool;
  input_source : string;
  picture_mode : string;
  brightness : Z;
  contrast : Z;
  temperature : option Z;
  serial_number : option string;
  software_version : option string;
  video_wall_enabled : bool;
  grid_position : option (Z * Z)
}.

(** The dataclass defaults. *)
Definition default_status : DisplayStatus :=
  {| online := false; responsive := false; last_seen := None;
     error_count := 0; power := false; volume := 50; muted := false;
     input_source := "HDMI1"; picture_mode := "STANDARD";
     brightness := 50; contrast := 50; temperature := None;
     serial_number := None; software_version := None;
     video_wall_enabled := false; grid_position := None |}.

(** Field assignments [self.status.f = v]. *)
Definition with_online (v : bool) (s : DisplayStatus) : DisplayStatus :=
  {| online := v; responsive := responsive s; last_seen := last_seen s;
     error_count := error_count s; power := power s; volume := volume s;
     muted := muted s; input_source := input_source s;
     picture_mode := picture_mode s; brightness := brightness s;
     contrast := contrast s; temperature := temperature s;
     serial_number := serial_number s;
     software_version := software_version s;
     video_wall_enabled := video_wall_enabled s;
     grid_position := grid_position s |}.

Definition with_responsive (v : bool) (s : DisplayStatus) : DisplayStatus :=
  {| online := online s; responsive := v; last_seen := last_seen s;
     error_count := error_count s; power := power s; volume := volume s;
     muted := muted s; input_source := input_source s;
     picture_mode := picture_mode s; brightness := brightness s;
     contrast := contrast s; temperature := temperature s;
     serial_number := serial_number s;
     software_version := software_version s;
     video_wall_enabled := video_wall_enabled s;
     grid_position := grid_position s |}.

Definition with_last_seen (v : option Z) (s : DisplayStatus) : DisplayStatus :=
  {| online := online s; responsive := responsive s; last_seen := v;
     error_count := error_count s; power := power s; volume := volume s;
     muted := muted s; input_source := input_source s;
     picture_mode := picture_mode s; brightness := brightness s;
     contrast := contrast s; temperature := temperature s;
     serial_number := serial_number s;
     software_version := software_version s;
     video_wall_enabled := video_wall_enabled s;
     grid_position := grid_position s |}.

Definition with_error_count (v : Z) (s : DisplayStatus) : DisplayStatus :=
  {| online := online s; responsive := responsive s;
     last_seen := last_seen s; error_count := v; power := power s;
     volume := volume s; muted := muted s; input_source := input_source s;
     picture_mode := picture_mode s; brightness := brightness s;
     contrast := contrast s; temperature := temperature s;
     serial_number := serial_number s;
     software_version := software_version s;
     video_wall_enabled := video_wall_enabled s;
     grid_position := grid_position s |}.

Definition with_power (v : bool) (s : DisplayStatus) : DisplayStatus :=
  {| online := online s; responsive := responsive s;
     last_seen := last_seen s; error_count := error_count s; power := v;
     volume := volume s; muted := muted s; input_source := input_source s;
     picture_mode := picture_mode s; brightness := brightness s;
     contrast := contrast s; temperature := temperature s;
     serial_number := serial_number s;
     software_version := software_version s;
     video_wall_enabled := video_wall_enabled s;
     grid_position := grid_position s |}.

Definition with_volume (v : Z) (s : DisplayStatus) : DisplayStatus :=
  {| online := online s; responsive := responsive s;
     last_seen := last_seen s; error_count := error_count s;
     power := power s; volume := v; muted := muted s;
     input_source := input_source s; picture_mode := picture_mode s;
     brightness := brightness s; contrast := contrast s;
     temperature := temperature s; serial_number := serial_number s;
     software_version := software_version s;
     video_wall_enabled := video_wall_enabled s;
     grid_position := grid_position s |}.

Definition with_muted (v : bool) (s : DisplayStatus) : DisplayStatus :=
  {| online := online s; responsive := responsive s;
     last_seen := last_seen s; error_count := error_count s;
     power := power s; volume := volume s; muted := v;
     input_source := input_source s; picture_mode := picture_mode s;
     brightness := brightness s; contrast := contrast s;
     temperature := temperature s; serial_number := serial_number s;
     software_version := software_version s;
     video_wall_enabled := video_wall_enabled s;
     grid_position := grid_position s |}.

Definition with_input_source (v : string) (s : DisplayStatus) : DisplayStatus :=
  {| online := online s; responsive := responsive s;
     last_seen := last_seen s; error_count := error_count s;
     power := power s; volume := volume s; muted := muted s;
     input_source := v; picture_mode := picture_mode s;
     brightness := brightness s; contrast := contrast s;
     temperature := temperature s; serial_number := serial_number s;
     software_version := software_version s;
     video_wall_enabled := video_wall_enabled s;
     grid_position := grid_position s |}.

Definition with_picture_mode (v : string) (s : DisplayStatus) : DisplayStatus :=
  {| online := online s; responsive := responsive s;
     last_seen := last_seen s; error_count := error_count s;
     power := power s; volume := volume s; muted := muted s;
     input_source := input_source s; picture_mode := v;
     brightness := brightness s; contrast := contrast s;
     temperature := temperature s; serial_number := serial_number s;
     software_version := software_version s;
     video_wall_enabled := video_wall_enabled s;
     grid_position := grid_position s |}.

Definition with_brightness (v : Z) (s : DisplayStatus) : DisplayStatus :=
  {| online := online s; responsive := responsive s;
     last_seen := last_seen s; error_count := error_count s;
     power := power s; volume := volume s; muted := muted s;
     input_source := input_source s; picture_mode := picture_mode s;
     brightness := v; contrast := contrast s; temperature := temperature s;
     serial_number := serial_number s;
     software_version := software_version s;
     video_wall_enabled := video_wall_enabled s;
     grid_position := grid_position s |}.

Definition with_contrast (v : Z) (s : DisplayStatus) : DisplayStatus :=
  {| online := online s; responsive := responsive s;
     last_seen := last_seen s; error_count := error_count s;
     power := power s; volume := volume s; muted := muted s;
     input_source := input_source s; picture_mode := picture_mode s;
     brightness := brightness s; contrast := v; temperature := temperature s;
     serial_number := serial_number s;
     software_version := software_version s;
     video_wall_enabled := video_wall_enabled s;
     grid_position := grid_position s |}.

Definition with_temperature (v : option Z) (s : DisplayStatus) : DisplayStatus :=
  {| online := online s; responsive := responsive s;
     last_seen := last_seen s; error_count := error_count s;
     power := power s; volume := volume s; muted := muted s;
     input_source := input_source s; picture_mode := picture_mode s;
     brightness := brightness s; contrast := contrast s; temperature := v;
     serial_number := serial_number s;
     software_version := software_version s;
     video_wall_enabled := video_wall_enabled s;
     grid_position := grid_position s |}.

Definition with_serial_number (v : option string) (s : DisplayStatus) : DisplayStatus :=
  {| online := online s; responsive := responsive s;
     last_seen := last_seen s; error_count := error_count s;
     power := power s; volume := volume s; muted := muted s;
     input_source := input_source s; picture_mode := picture_mode s;
     brightness := brightness s; contrast := contrast s;
     temperature := temperature s; serial_number := v;
     software_version := software_version s;
     video_wall_enabled := video_wall_enabled s;
     grid_position := grid_position s |}.

Definition with_software_version (v : option string) (s : DisplayStatus) : DisplayStatus :=
  {| online := online s; responsive := responsive s;
     last_seen := last_seen s; error_count := error_count s;
     power := power s; volume := volume s; muted := muted s;
     input_source := input_source s; picture_mode := picture_mode s;
     brightness := brightness s; contrast := contrast s;
     temperature := temperature s; serial_number := serial_number s;
     software_version := v; video_wall_enabled := video_wall_enabled s;
     grid_position := grid_position s |}.

Definition with_video_wall_enabled (v : bool) (s : DisplayStatus) : DisplayStatus :=
  {| online := online s; responsive := responsive s;
     last_seen := last_seen s; error_count := error_count s;
     power := power s; volume := volume s; muted := muted s;
     input_source := input_source s; picture_mode := picture_mode s;
     brightness := brightness s; contrast := contrast s;
     temperature := temperature s; serial_number := serial_number s;
     software_version := software_version s; video_wall_enabled := v;
     grid_position := grid_position s |}.

Definition with_grid_position (v : option (Z * Z)) (s : DisplayStatus) : DisplayStatus :=
  {| online := online s; responsive := responsive s;
     last_seen := last_seen s; error_count := error_count s;
     power := power s; volume := volume s; muted := muted s;
     input_source := input_source s; picture_mode := picture_mode s;
     brightness := brightness s; contrast := contrast s;
     temperature := temperature s; serial_number := serial_number s;
     software_version := software_version s;
     video_wall_enabled := video_wall_enabled s; grid_position := v |}.

(** The controller object [self]. [streams] tells whether [self.reader]
    and [self.writer] hold stream objects ([true]) or [None] ([false]). *)
Record Controller := {
  display_id : Z;
  max_retries : Z;
  streams : bool;
  connected : bool;
  status : DisplayStatus
}.

(** [__init__] *)
Definition new_controller (id : Z) : Controller :=
  {| display_id := id; max_retries := 3; streams := false;
     connected := false; status := default_status |}.

Definition with_streams (v : bool) (c : Controller) : Controller :=
  {| display_id := display_id c; max_retries := max_retries c;
     streams := v; connected := connected c; status := status c |}.

Definition with_connected (v : bool) (c : Controller) : Controller :=
  {| display_id := display_id c; max_retries := max_retries c;
     streams := streams c; connected := v; status := status c |}.

Definition with_status (f : DisplayStatus -> DisplayStatus) (c : Controller)
  : Controller :=
  {| display_id := display_id c; max_retries := max_retries c;
     streams := streams c; connected := connected c;
     status := f (status c) |}.

(** ** Packet codec *)

Definition mdc_checksum (header cmd id data_length : Z) (data : bytes) : Z :=
  Z.land (header + cmd + id + data_length + sum_bytes data) 0xFF.

(** [_create_mdc_packet]; [command] is [command.value]. [None] is the
    [struct.error] that [struct.pack] raises on a field outside 0..255. *)
Definition _create_mdc_packet (self : Controller) (command : Z) (data : bytes)
  : option bytes :=
  let header := 0xAA in
  let cmd := command in
  let id := display_id self in
  let data_length := Z.of_nat (List.length data) in
  let checksum := mdc_checksum header cmd id data_length data in
  match pack_B header, pack_B cmd, pack_B id, pack_B data_length with
  | Some h, Some c, Some d, Some l =>
      match pack_B checksum with
      | Some k => Some ([h; c; d; l] ++ data ++ [k])%list
      | None => None
      end
  | _, _, _, _ => None
  end.

(** The dictionaries the controller returns: a parsed response, the
    acknowledgement of a command sent without waiting for a response, or a
    failure with its error text. *)
Inductive Result :=
| Parsed (command : Z) (data : bytes) (id : Z) (raw_response : bytes)
| Sent (message : string)
| Failure (error : string).

(** [result['success']] *)
Definition success (r : Result) : bool :=
  match r with Failure _ => false | _ => true end.

(** [result.get('data')] *)
Definition get_data (r : Result) : option bytes :=
  match r with Parsed _ d _ _ => Some d | _ => None end.

Definition checksum_warning (expected got : Z) : string :=
  ("Checksum mismatch: expected " ++ str_of_Z expected ++ ", got "
     ++ str_of_Z got)%string.

(** [_parse_mdc_response]: the warnings it logs and the dictionary it
    returns. *)
Definition _parse_mdc_response (self : Controller) (response : bytes)
  : list string * Result :=
  if (Z.of_nat (List.length response) <? 4) then
    ([], Failure "Response too short")
  else
    match firstn 4 response with
    | [h; c; d; l] =>
        let header := byte_val h in
        let cmd := byte_val c in
        let id := byte_val d in
        let data_length := byte_val l in
        if negb (header =? 0xAA) then ([], Failure "Invalid header")
        else if negb (id =? display_id self) then
          ([], Failure "Display ID mismatch")
        else
          let data :=
            if 0 <? data_length
            then firstn (Z.to_nat data_length) (skipn 4 response)
            else [] in
          let warnings :=
            if 4 + data_length <? Z.of_nat (List.length response) then
              match nth_error response (Z.to_nat (4 + data_length)) with
              | Some k =>
                  let checksum := byte_val k in
                  let expected_checksum :=
                    mdc_checksum header cmd id data_length data in
                  if negb (checksum =? expected_checksum)
                  then [checksum_warning expected_checksum checksum]
                  else []
              | None => []
              end
            else [] in
          (warnings, Parsed cmd data id response)
    | _ => ([], Failure "Parse error")
    end.

(** ** Transport: the asyncio streams and the clock *)

Inductive connect_outcome := ConnectOk | ConnectTimeout | ConnectError.
Inductive write_outcome := WriteOk | WriteError.
Inductive read_outcome :=
| ReadBytes (response : bytes) | ReadTimeout | ReadError.
Inductive close_outcome := CloseOk | CloseError.

(** What the world answers to each awaited operation.
    - [open_connection]: [asyncio.wait_for(asyncio.open_connection(ip, port),
      connection_timeout)] returns the streams, raises
      [asyncio.TimeoutError], or raises another exception.
    - [write_drain]: [writer.write(packet); await writer.drain()] returns or
      raises.
    - [read_1024]: [asyncio.wait_for(reader.read(1024), command_timeout)]
      returns bytes (empty at end of stream), raises
      [asyncio.TimeoutError], or raises another exception.
    - [close_wait]: [writer.close(); await writer.wait_closed()].
    - [sleep]: [await asyncio.sleep(seconds)].
    - [now]: [datetime.now()]. *)
Class Transport (W : Type) := {
  open_connection : W -> connect_outcome * W;
  write_drain : bytes -> W -> write_outcome * W;
  read_1024 : W -> read_outcome * W;
  close_wait : W -> close_outcome * W;
  sleep : Z -> W -> W;
  now : W -> timestamp
}.

(** The I/O the controller has performed, oldest first. *)
Inductive event :=
| EvConnect (o : connect_outcome)
| EvWrite (packet : bytes) (o : write_outcome)
| EvRead (o : read_outcome)
| EvClose (o : close_outcome)
| EvSleep (seconds : Z)
| EvWarning (text : string).

Record Machine (W : Type) := {
  ctl : Controller;
  world : W;
  events : list event
}.
Arguments ctl {W} _.
Arguments world {W} _.
Arguments events {W} _.
Arguments Build_Machine {W} _ _ _.

(** [range(n)] *)
Definition range (n : Z) : list Z := map Z.of_nat (seq 0 (Z.to_nat n)).

(** [bytes([v])] for the values the controller passes: enumeration values
    and settings already checked against their range, all within 0..255. *)
Definition to_byte (v : Z) : byte :=
  match pack_B v with Some b => b | None => x00 end.

(** [data.decode('ascii', errors='ignore')]: bytes above 0x7F are dropped. *)
Definition decode_ascii_ignore (data : bytes) : list ascii :=
  map ascii_of_byte (filter (fun b => byte_val b <? 128) data).

(** [str.isspace] on the ASCII range. *)
Definition is_space (a : ascii) : bool :=
  let n := Z.of_N (N_of_ascii a) in
  ((9 <=? n) && (n <=? 13)) || ((28 <=? n) && (n <=? 32)).

Fixpoint lstrip (s : list ascii) : list ascii :=
  match s with
  | a :: s' => if is_space a then lstrip s' else s
  | [] => []
  end.

(** [str.strip()] *)
Definition strip (s : list ascii) : list ascii :=
  rev (lstrip (rev (lstrip s))).

Definition decode_strip (data : bytes) : string :=
  string_of_list_ascii (strip (decode_ascii_ignore data)).

(** [str.lower()] on the ASCII range; other bytes are kept. *)
Definition lower_ascii (a : ascii) : ascii :=
  let n := N_of_ascii a in
  if ((65 <=? n) && (n <=? 90))%N then ascii_of_N (n + 32) else a.

Fixpoint lower (s : string) : string :=
  match s with
  | EmptyString => EmptyString
  | String a s' => String (lower_ascii a) (lower s')
  end.

(** [sub in s] *)
Fixpoint contains (sub s : string) : bool :=
  String.prefix sub s ||
  match s with
  | EmptyString => false
  | String _ s' => contains sub s'
  end.

(** ** Session and command execution *)

Section Controller.
Context {W : Type} {T : Transport W}.

Abbreviation St := (Machine W).

Definition emit (e : event) (m : St) : St :=
    {| ctl := ctl m; world := world m; events := events m ++ [e] |}.

Definition update (f : Controller -> Controller) (m : St) : St :=
    {| ctl := f (ctl m); world := world m; events := events m |}.

Definition set_world (w : W) (m : St) : St :=
    {| ctl := ctl m; world := w; events := events m |}.

Definition log_warnings (texts : list string) (m : St) : St :=
    fold_left (fun m t => emit (EvWarning t) m) texts m.

  (** [connect] *)
Definition connect (m : St) : bool * St :=
    let (o, w) := open_connection (world m) in
    let m := emit (EvConnect o) (set_world w m) in
    match o with
    | ConnectOk =>
        let m := update (with_streams true) m in
        let m := update (with_connected true) m in
        let m := update (with_status (with_online true)) m in
        let m := update (with_status (with_last_seen (Some (now w)))) m in
        let m := update (with_status (with_error_count 0)) m in
        (true, m)
    | ConnectTimeout =>
        (false, update (with_status (with_online false)) m)
    | ConnectError =>
        let m := update (with_status (with_online false)) m in
        let m := update (with_status
                   (fun s => with_error_count (error_count s + 1) s)) m in
        (false, m)
    end.

  (** [disconnect]; an exception while closing is caught and logged. *)
Definition disconnect (m : St) : St :=
    let m :=
      if streams (ctl m) then
        let (o, w) := close_wait (world m) in
        emit (EvClose o) (set_world w m)
      else m in
    let m := update (with_connected false) m in
    update (with_streams false) m.

  (** The [except Exception] handler of [send_command]. *)
Definition on_exception (attempt : Z) (m : St) : St :=
    let m := update (with_connected false) m in
    let m := update (with_status
               (fun s => with_error_count (error_count s + 1) s)) m in
    if attempt <? max_retries (ctl m) - 1
    then emit (EvSleep 1) (set_world (sleep 1 (world m)) m)
    else m.

  (** One iteration of the retry loop of [send_command]: [Some r] when the
      iteration returns [r], [None] when control reaches the next
      iteration (through [continue], through the handler, or by falling
      off the end of the [try] block). *)
Definition send_attempt (command : MDCCommand) (data : bytes)
      (expect_response : bool) (attempt : Z) (m : St) : option Result * St :=
    let '(up, m) := if connected (ctl m) then (true, m) else connect m in
    if negb up then (None, m)
    else
      match _create_mdc_packet (ctl m) (MDC.value command) data with
      | None => (None, on_exception attempt m)
      | Some packet =>
          if negb (streams (ctl m)) then (None, on_exception attempt m)
          else
            let (wo, w) := write_drain packet (world m) in
            let m := emit (EvWrite packet wo) (set_world w m) in
            match wo with
            | WriteError => (None, on_exception attempt m)
            | WriteOk =>
                if expect_response then
                  let (ro, w) := read_1024 (world m) in
                  let m := emit (EvRead ro) (set_world w m) in
                  match ro with
                  | ReadTimeout => (None, update (with_connected false) m)
                  | ReadError => (None, on_exception attempt m)
                  | ReadBytes [] => (None, m)
                  | ReadBytes response =>
                      let (warnings, result) :=
                        _parse_mdc_response (ctl m) response in
                      let m := log_warnings warnings m in
                      match result with
                      | Failure error =>
                          (None,
                           emit (EvWarning ("Command " ++ MDC.name command
                                   ++ " failed: " ++ error)%string) m)
                      | _ =>
                          let m :=
                            update (with_status (with_responsive true)) m in
                          let m :=
                            update (with_status
                              (with_last_seen (Some (now (world m))))) m in
                          (Some result, m)
                      end
                  end
                else
                  let m :=
                    update (with_status
                      (with_last_seen (Some (now (world m))))) m in
                  (Some (Sent ("Command " ++ MDC.name command
                                 ++ " sent")%string), m)
            end
      end.

  (** The [for attempt in range(self.max_retries)] loop. *)
Fixpoint send_loop (command : MDCCommand) (data : bytes)
      (expect_response : bool) (attempts : list Z) (m : St)
    : option Result * St :=
    match attempts with
    | [] => (None, m)
    | attempt :: rest =>
        match send_attempt command data expect_response attempt m with
        | (Some r, m') => (Some r, m')
        | (None, m') => send_loop command data expect_response rest m'
        end
    end.

Definition exhausted (command : MDCCommand) (retries : Z) : string :=
    ("Command " ++ MDC.name command ++ " failed after "
       ++ str_of_Z retries ++ " attempts")%string.

  (** [send_command] *)
Definition send_command (command : MDCCommand) (data : bytes)
      (expect_response : bool) (m : St) : Result * St :=
    match send_loop command data expect_response
            (range (max_retries (ctl m))) m with
    | (Some r, m') => (r, m')
    | (None, m') =>
        let m' := update (with_status (with_responsive false)) m' in
        (Failure (exhausted command (max_retries (ctl m'))), m')
    end.
End Controller.

(** ** Setters and queries *)

Section Operations.
Context {W : Type} {T : Transport W}.

Abbreviation St := (Machine W).

(** The common shape of a setter: send, and on success record the new
    value in the status. *)
Definition send_and_record (command : MDCCommand) (data : bytes)
    (record : DisplayStatus -> DisplayStatus) (m : St) : Result * St :=
  let (result, m) := send_command command data true m in
  if success result then (result, update (with_status record) m)
  else (result, m).

Definition power_on (m : St) : Result * St :=
  send_and_record POWER [to_byte (Power.value ON)] (with_power true) m.

Definition power_off (m : St) : Result * St :=
  send_and_record POWER [to_byte (Power.value OFF)] (with_power false) m.

(** [get_power_status]; the second component is the key ['power_on'],
    present only when the response carried data. *)
Definition get_power_status (m : St) : (Result * option bool) * St :=
  let (result, m) := send_command POWER_STATUS [] true m in
  match result with
  | Parsed _ (b :: _) _ _ =>
      let power_state := byte_val b in
      let m :=
        update (with_status (with_power (power_state =? Power.value ON))) m in
      ((result, Some (power (status (ctl m)))), m)
  | _ => ((result, None), m)
  end.

Definition set_volume (volume : Z) (m : St) : Result * St :=
  if negb ((0 <=? volume) && (volume <=? 100)) then
    (Failure "Volume must be between 0-100", m)
  else send_and_record VOLUME [to_byte volume] (with_volume volume) m.

Definition set_mute (muted : bool) (m : St) : Result * St :=
  let mute_value := if muted then 0x01 else 0x00 in
  send_and_record MUTE [to_byte mute_value] (with_muted muted) m.

Definition set_input_source (source : InputSource) (m : St) : Result * St :=
  send_and_record INPUT_SOURCE [to_byte (Input.value source)]
    (with_input_source (Input.name source)) m.

Definition set_picture_mode (mode : PictureMode) (m : St) : Result * St :=
  send_and_record PICTURE_MODE [to_byte (Picture.value mode)]
    (with_picture_mode (Picture.name mode)) m.

Definition set_brightness (brightness : Z) (m : St) : Result * St :=
  if negb ((0 <=? brightness) && (brightness <=? 100)) then
    (Failure "Brightness must be between 0-100", m)
  else
    send_and_record BRIGHTNESS [to_byte brightness]
      (with_brightness brightness) m.

Definition set_contrast (contrast : Z) (m : St) : Result * St :=
  if negb ((0 <=? contrast) && (contrast <=? 100)) then
    (Failure "Contrast must be between 0-100", m)
  else
    send_and_record CONTRAST [to_byte contrast] (with_contrast contrast) m.

(** [get_temperature]; the second component is the key ['temperature']. *)
Definition get_temperature (m : St) : (Result * option Z) * St :=
  let (result, m) := send_command CURRENT_TEMP [] true m in
  match result with
  | Parsed _ (b :: _) _ _ =>
      let temp := byte_val b in
      let m := update (with_status (with_temperature (Some temp))) m in
      ((result, Some temp), m)
  | _ => ((result, None), m)
  end.

(** The three text queries; the second component is the key added to the
    result (['serial_number'], ['model_number'], ['software_version']). *)
Definition text_query (command : MDCCommand)
    (record : string -> DisplayStatus -> DisplayStatus) (m : St)
  : (Result * option string) * St :=
  let (result, m) := send_command command [] true m in
  match result with
  | Parsed _ (b :: rest) _ _ =>
      let text := decode_strip (b :: rest) in
      ((result, Some text), update (with_status (record text)) m)
  | _ => ((result, None), m)
  end.

Definition get_serial_number (m : St) : (Result * option string) * St :=
  text_query SERIAL_NUMBER (fun t => with_serial_number (Some t)) m.

Definition get_model_number (m : St) : (Result * option string) * St :=
  text_query MODEL_NUMBER (fun _ s => s) m.

Definition get_software_version (m : St) : (Result * option string) * St :=
  text_query SOFTWARE_VERSION (fun t => with_software_version (Some t)) m.

Definition set_video_wall_mode (enabled : bool)
    (h_monitors v_monitors h_position v_position : Z) (m : St)
  : Result * St :=
  if negb ((1 <=? h_monitors) && (h_monitors <=? 10))
     || negb ((1 <=? v_monitors) && (v_monitors <=? 10)) then
    (Failure ("Monitor count must be 1-10 "
              ++ "(Samsung LH55BECHLGFXGO supports up to 10x10)"), m)
  else if negb ((1 <=? h_position) && (h_position <=? h_monitors))
          || negb ((1 <=? v_position) && (v_position <=? v_monitors)) then
    (Failure "Position must be within monitor grid", m)
  else
    let wall_mode := if enabled then 0x01 else 0x00 in
    let data :=
      map to_byte [wall_mode; h_monitors; v_monitors; h_position; v_position]
    in
    let (result, m) := send_command VIDEO_WALL_MODE data true m in
    if success result then
      let m := update (with_status (with_video_wall_enabled enabled)) m in
      let m :=
        if enabled
        then update (with_status
               (with_grid_position (Some (h_position, v_position)))) m
        else update (with_status (with_grid_position None)) m in
      (result, m)
    else (result, m).
End Operations.

(** ** Health check *)

Module Health.
Inductive connection_report :=
| ConnectionUnknown
| Connection (status : string) (error_count : Z)
    (last_seen : option timestamp).

Inductive power_report :=
| PowerUnknown
| PowerReport (status : string) (responsive : bool).

Inductive temperature_report :=
| TemperatureUnknown
| TemperatureReading (value : Z) (status : string)
| TemperatureUnavailable.

Record system_report := {
  serial_number : option string;
  model_number : option string;
  software_version : option string
}.

(** The dictionary [health_data]. A key that may be absent is an option:
    [issues] is [None] while the dictionary has no ['issues'] key. *)
Record data := {
  display_id : Z;
  timestamp : Z;
  connection : connection_report;
  power : power_report;
  temperature : temperature_report;
  system_info : system_report;
  overall_health : string;
  issues : option (list string)
}.
End Health.

(** The conditional expression that labels a temperature reading. *)
Definition temperature_status (temp : Z) : string :=
  if temp <? 60 then "normal"
  else if temp <? 70 then "warning"
  else "critical".

Definition degree_sign : string :=
  String (ascii_of_N 194) (String (ascii_of_N 176) EmptyString).

Definition high_temperature (temp : Z) : string :=
  ("High temperature: " ++ str_of_Z temp ++ degree_sign ++ "C")%string.

(** The [if]/[elif]/[else] that determines ['overall_health']. *)
Definition overall (issues : list string) : string :=
  if Z.of_nat (List.length issues) =? 0 then "healthy"
  else if existsb (fun issue => contains "critical" (lower issue)
                                || contains "failed" (lower issue)) issues
  then "critical"
  else "warning".

(** An element of the list [asyncio.gather(..., return_exceptions=True)]
    returns: the dictionary of a query with the key it may have added, or
    [None] for an exception object. *)
Definition gathered := option (Result * option string).

(** The entry of ['system_info'] taken from one gathered result. *)
Definition info_entry (g : gathered) : option string :=
  match g with
  | Some (result, Some text) => if success result then Some text else None
  | _ => None
  end.

Section HealthCheck.
Context {W : Type} {T : Transport W}.

Abbreviation St := (Machine W).

(** [asyncio.gather] runs [get_serial_number], [get_model_number] and
    [get_software_version] as three concurrent tasks over the one
    connection. How their steps interleave is not fixed by the program, so
    the step is a parameter: any function from the machine to the three
    results and the machine afterwards. *)
Variable gather_system_info : St -> (gathered * gathered * gathered) * St.

(** [health_check]. [get_power_status] and [get_temperature] raise nothing
    ([send_command] catches every exception), so the [except] branches of
    the method are unreachable and are not represented. *)
Definition health_check (m : St) : Health.data * St :=
  let id := display_id (ctl m) in
  let stamp := now (world m) in
  let issues : list string := [] in
  let '(connection_success, m) :=
    if negb (connected (ctl m)) then connect m else (true, m) in
  let connection :=
    Health.Connection
      (if connection_success then "connected" else "failed")
      (error_count (status (ctl m)))
      (last_seen (status (ctl m))) in
  if negb connection_success then
    let issues := (issues ++ ["Connection failed"%string])%list in
    ({| Health.display_id := id;
        Health.timestamp := stamp;
        Health.connection := connection;
        Health.power := Health.PowerUnknown;
        Health.temperature := Health.TemperatureUnknown;
        Health.system_info :=
          {| Health.serial_number := None; Health.model_number := None;
             Health.software_version := None |};
        Health.overall_health := "critical";
        Health.issues := None |}, m)
  else
    let '((power_result, power_on), m) := get_power_status m in
    let power_report :=
      Health.PowerReport
        (match power_on with Some true => "on" | _ => "off" end)
        (success power_result) in
    let issues :=
      if negb (success power_result)
      then (issues ++ ["Power status check failed"%string])%list
      else issues in
    let '((temp_result, temp_key), m) := get_temperature m in
    let '(temperature_report, issues) :=
      match success temp_result, temp_key with
      | true, Some temp =>
          (Health.TemperatureReading temp (temperature_status temp),
           if 70 <=? temp
           then (issues ++ [high_temperature temp])%list
           else issues)
      | _, _ => (Health.TemperatureUnavailable, issues)
      end in
    let '((r0, r1, r2), m) := gather_system_info m in
    ({| Health.display_id := id;
        Health.timestamp := stamp;
        Health.connection := connection;
        Health.power := power_report;
        Health.temperature := temperature_report;
        Health.system_info :=
          {| Health.serial_number := info_entry r0;
             Health.model_number := info_entry r1;
             Health.software_version := info_entry r2 |};
        Health.overall_health := overall issues;
        Health.issues := Some issues |}, m).
End HealthCheck.

(** The three queries run one after the other: one schedule of the
    gathered tasks, used to run [health_check] on concrete worlds. *)
Definition gather_in_turn {W : Type} {T : Transport W} (m : Machine W)
  : (gathered * gathered * gathered) * Machine W :=
  let (r0, m) := get_serial_number m in
  let (r1, m) := get_model_number m in
  let (r2, m) := get_software_version m in
  ((Some r0, Some r1, Some r2), m).

(** ** A scripted world

    A world that answers from three scripts, one per kind of operation,
    each consumed from the front; an exhausted script answers with a
    timeout (connect, read) or an error (write). The clock advances by one
    at each operation and by the requested seconds at a sleep. *)
Record Script := {
  connects : list connect_outcome;
  writes : list write_outcome;
  reads : list read_outcome;
  clock : Z
}.

Definition script_connect (w : Script) : connect_outcome * Script :=
  let o := match connects w with o :: _ => o | [] => ConnectTimeout end in
  (o, {| connects := tl (connects w); writes := writes w;
         reads := reads w; clock := clock w + 1 |}).

Definition script_write (_ : bytes) (w : Script) : write_outcome * Script :=
  let o := match writes w with o :: _ => o | [] => WriteError end in
  (o, {| connects := connects w; writes := tl (writes w);
         reads := reads w; clock := clock w + 1 |}).

Definition script_read (w : Script) : read_outcome * Script :=
  let o := match reads w with o :: _ => o | [] => ReadTimeout end in
  (o, {| connects := connects w; writes := writes w;
         reads := tl (reads w); clock := clock w + 1 |}).

Definition script_close (w : Script) : close_outcome * Script :=
  (CloseOk, {| connects := connects w; writes := writes w;
               reads := reads w; clock := clock w + 1 |}).

Definition script_sleep (seconds : Z) (w : Script) : Script :=
  {| connects := connects w; writes := writes w; reads := reads w;
     clock := clock w + seconds |}.

#[export] Instance ScriptTransport : Transport Script := {
  open_connection := script_connect;
  write_drain := script_write;
  read_1024 := script_read;
  close_wait := script_close;
  sleep := script_sleep;
  now := clock
}.

(** A machine around a controller and a scripted world, nothing done yet. *)
Definition boot (c : Controller) (w : Script) : Machine Script :=
  {| ctl := c; world := w; events := [] |}.

(** ** Worlds and frames for concrete runs *)

(** A display that never accepts a connection. *)
Definition unreachable : Script :=
  {| connects := []; writes := []; reads := []; clock := 0 |}.

(** A response whose first byte is not 0xAA. *)
Definition wrong_header : bytes := [x00; x11; x01; x00; x12].

(** A well-formed response from display 2. *)
Definition foreign_display : bytes := [xaa; x11; x02; x00; xbd].

(** A device that accepts the connection and every frame, and answers
    each one with a frame that is not for display 1. *)
Definition answers_wrongly : Script :=
  {| connects := [ConnectOk];
     writes := [WriteOk; WriteOk; WriteOk];
     reads := [ReadBytes wrong_header; ReadBytes foreign_display;
               ReadBytes wrong_header];
     clock := 0 |}.

(** Display 1 reporting that its power is on. *)
Definition power_is_on : bytes := [xaa; xf1; x01; x01; x01; x9e].

(** Display 1 reporting 60 degrees. *)
Definition sixty_degrees : bytes := [xaa; x2b; x01; x01; x3c; x13].

(** A display that connects once, answers one power query, accepts one
    more frame, and then is gone. *)
Definition answers_once : Script :=
  {| connects := [ConnectOk];
     writes := [WriteOk; WriteOk];
     reads := [ReadBytes power_is_on];
     clock := 0 |}.

(** A display that accepts a first connection and raises an error on the
    second. *)
Definition refuses_second_connect : Script :=
  {| connects := [ConnectOk; ConnectError]; writes := []; reads := [];
     clock := 0 |}.

(** A display that answers the power and temperature queries and then
    goes silent. *)
Definition warm_display : Script :=
  {| connects := [ConnectOk];
     writes := [WriteOk; WriteOk];
     reads := [ReadBytes power_is_on; ReadBytes sixty_degrees];
     clock := 0 |}.

(** ** The command table of the backend ([video_wall_backend.py])

    [DisplayController._send_tcp_command], the repository's other sender
    of MDC frames, does not compute its frames: it takes them from a
    table of byte strings written out in the source. *)

(** [bytes([...])]: [None] is the [ValueError] raised for a value outside
    [range(256)]. *)
Fixpoint bytes_of (values : list Z) : option bytes :=
  match values with
  | [] => Some []
  | v :: rest =>
      match pack_B v, bytes_of rest with
      | Some b, Some t => Some (b :: t)
      | _, _ => None
      end
  end.

Module Backend.
(** [mdc_commands['power_on']] *)
Definition power_on (display_id : Z) : option bytes :=
  bytes_of [0xAA; 0x11; display_id; 0x01; 0x01; 0x14].

(** [mdc_commands['power_off']] *)
Definition power_off (display_id : Z) : option bytes :=
  bytes_of [0xAA; 0x11; display_id; 0x01; 0x00; 0x13].

(** [mdc_commands['volume_set'](vol)] *)
Definition volume_set (display_id vol : Z) : option bytes :=
  bytes_of [0xAA; 0x12; display_id; 0x01; vol; 0x14 + vol].
End Backend.

(** ** Configuration dictionaries ([VideoWallConfig])

    A configuration value is a dictionary or anything else; the code only
    ever asks whether a value is a dictionary, so what is not one is a
    [Scalar] over an arbitrary type. A dictionary is the list of its items
    in insertion order, under string keys. *)

Inductive Config (A : Type) : Type :=
| Scalar (a : A)
| Mapping (items : list (string * Config A)).
Arguments Scalar {A} _.
Arguments Mapping {A} _.

(** [d[key]] when [key in d]. *)
Fixpoint dict_get {V : Type} (key : string) (d : list (string * V))
  : option V :=
  match d with
  | [] => None
  | (k, v) :: rest => if String.eqb k key then Some v else dict_get key rest
  end.

(** [d[key] = value]: an existing key keeps its place, a new key goes to
    the end. *)
Fixpoint dict_set {V : Type} (key : string) (value : V)
    (d : list (string * V)) : list (string * V) :=
  match d with
  | [] => [(key, value)]
  | (k, v) :: rest =>
      if String.eqb k key then (k, value) :: rest
      else (k, v) :: dict_set key value rest
  end.

(** [s.split(sep)] for a one-character separator. *)
Fixpoint split (sep : ascii) (s : string) : list string :=
  match s with
  | EmptyString => [EmptyString]
  | String c rest =>
      if Ascii.eqb c sep then EmptyString :: split sep rest
      else
        match split sep rest with
        | piece :: pieces => String c piece :: pieces
        | [] => [String c EmptyString]
        end
  end.

(** [l[:n]] *)
Definition slice_to {X : Type} (n : Z) (l : list X) : list X :=
  if 0 <=? n then firstn (Z.to_nat n) l
  else firstn (List.length l - Z.to_nat (- n)) l.

(** [enumerate(l)] *)
Definition enumerate {X : Type} (l : list X) : list (Z * X) :=
  combine (map Z.of_nat (seq 0 (List.length l))) l.

(** [range(a, b)] *)
Definition range_from (a b : Z) : list Z :=
  map (fun k => a + Z.of_nat k) (seq 0 (Z.to_nat (b - a))).

Module VideoWallConfig.
Section WithScalars.
Context {A : Type}.

Abbreviation dict := (list (string * Config A)).

(** What one iteration of [_deep_merge] leaves under [key]: the merge of
    the two dictionaries when the target holds a dictionary under [key]
    and [value] is one, [value] otherwise. [old] is [target[key]] when
    [key in target]. *)
Fixpoint merge_value (value : Config A) (old : option (Config A))
  : Config A :=
  match value, old with
  | Mapping source, Some (Mapping target) =>
      Mapping
        ((fix loop (source target : dict) : dict :=
            match source with
            | [] => target
            | (key, v) :: rest =>
                loop rest
                  (dict_set key (merge_value v (dict_get key target)) target)
            end) source target)
  | _, _ => value
  end.

(** [_deep_merge]: the loop over [source.items()]; the result is the
    target dictionary after the call. *)
Fixpoint _deep_merge (target source : dict) : dict :=
  match source with
  | [] => target
  | (key, value) :: rest =>
      _deep_merge
        (dict_set key (merge_value value (dict_get key target)) target)
        rest
  end.

(** The loop of [get] over the keys of the path. *)
Fixpoint get_keys (keys : list string) (value default : Config A)
  : Config A :=
  match keys with
  | [] => value
  | key :: rest =>
      match value with
      | Mapping d =>
          match dict_get key d with
          | Some v => get_keys rest v default
          | None => default
          end
      | Scalar _ => default
      end
  end.

(** [get] *)
Definition get (config : dict) (key_path : string) (default : Config A)
  : Config A :=
  get_keys (split "." key_path) (Mapping config) default.

(** The body of [set] on the keys of the path: the dictionary after the
    call, or [None] when the call raises [TypeError] because a key before
    the last one holds something that is not a dictionary (nothing has
    been changed by then). [split] never returns the empty list. *)
Fixpoint set_keys (keys : list string) (value : Config A) (target : dict)
  : option dict :=
  match keys with
  | [] => None
  | [key] => Some (dict_set key value target)
  | key :: rest =>
      let child :=
        match dict_get key target with
        | None => Some []
        | Some (Mapping d) => Some d
        | Some (Scalar _) => None
        end in
      match child with
      | Some d =>
          match set_keys rest value d with
          | Some d' => Some (dict_set key (Mapping d') target)
          | None => None
          end
      | None => None
      end
  end.

(** [set] *)
Definition set (config : dict) (key_path : string) (value : Config A)
  : option dict :=
  set_keys (split "." key_path) value config.
End WithScalars.
End VideoWallConfig.

(** A dictionary has no key twice, at any depth. *)
Inductive WellFormed {A : Type} : Config A -> Prop :=
| wf_scalar (a : A) : WellFormed (Scalar a)
| wf_mapping (d : list (string * Config A)) :
    NoDup (map fst d) ->
    (forall k v, In (k, v) d -> WellFormed v) ->
    WellFormed (Mapping d).

(** ** Video wall grids (the layout endpoints) *)

(** The grid position given to the display at index [i] of a layout
    [h] wide: [(i % h) + 1] and [(i // h) + 1]. *)
Definition h_pos (i h : Z) : Z := (i mod h) + 1.
Definition v_pos (i h : Z) : Z := (i / h) + 1.

(** The grids [get_video_wall_layouts] offers for a number of displays:
    its loop over the widths. (With no display at all the endpoint answers
    with an error before the loop, which would offer nothing.) *)
Definition layout_grids (display_count : Z) : list (Z * Z) :=
  flat_map
    (fun h =>
       if display_count mod h =? 0 then
         let v := display_count / h in
         if v <=? 10 then [(h, v)] else []
       else [])
    (range_from 1 (Z.min (display_count + 1) 11)).

(** The [display_mapping] loop, shared by the layout endpoints: each of
    the first [h * v] displays with its position. [display_ids] is
    [list(display_controllers.keys())]. *)
Definition display_mapping (h v : Z) (display_ids : list Z)
  : list (Z * (Z * Z)) :=
  map (fun '(i, display_id) => (display_id, (h_pos i h, v_pos i h)))
    (enumerate (slice_to (h * v) display_ids)).

(** A controller whose retry budget is zero. *)
Definition without_budget : Controller :=
  {| display_id := 1; max_retries := 0; streams := false;
     connected := false; status := default_status |}.

(** A default configuration and the content of a configuration file,
    with integers as the values that are not dictionaries. *)
Definition sample_defaults : list (string * Config Z) :=
  [("server", Mapping [("port", Scalar 5000)]);
   ("monitoring",
    Mapping [("health_check_interval", Scalar 30);
             ("max_error_count", Scalar 5)])]%string.

Definition sample_file : list (string * Config Z) :=
  [("monitoring", Mapping [("max_error_count", Scalar 9)])]%string.

(** ** Traces and invariants *)

Definition is_connect (e : event) : bool :=
  match e with EvConnect _ => true | _ => false end.
Definition is_write (e : event) : bool :=
  match e with EvWrite _ _ => true | _ => false end.
Definition is_read (e : event) : bool :=
  match e with EvRead _ => true | _ => false end.
Definition is_sleep (e : event) : bool :=
  match e with EvSleep _ => true | _ => false end.
Definition is_close (e : event) : bool :=
  match e with EvClose _ => true | _ => false end.

(** How many events of a kind a trace holds. *)
Definition count (kind : event -> bool) (trace : list event) : nat :=
  List.length (filter kind trace).

(** The world answers the next [n] connection attempts with a failure. *)
Fixpoint connect_fails {W : Type} {T : Transport W} (n : nat) (w : W)
  : Prop :=
  match n with
  | O => True
  | S n' =>
      fst (open_connection w) <> ConnectOk
      /\ connect_fails n' (snd (open_connection w))
  end.

(** The session invariant of C10: a connected session has no recorded
    error. *)
Definition clean_while_connected (c : Controller) : Prop :=
  connected c = true -> error_count (status c) = 0.

(** What one iteration does to [responsive]: nothing unless it returns a
    parsed response. *)
Definition responsive_after {W : Type} (expect_response before : bool)
    (o : option Result) (m' : Machine W) : Prop :=
  match o with
  | None => responsive (status (ctl m')) = before
  | Some (Parsed _ _ _ _) =>
      expect_response = true /\ responsive (status (ctl m')) = true
  | Some (Sent _) =>
      expect_response = false /\ responsive (status (ctl m')) = before
  | Some (Failure _) => False
  end.

(** Two controller objects agree on everything [send_command] has no
    business changing: the identity of the display, the retry budget and
    the last-known settings and device information. *)
Definition same_settings (c c' : Controller) : Prop :=
  display_id c' = display_id c
  /\ max_retries c' = max_retries c
  /\ power (status c') = power (status c)
  /\ volume (status c') = volume (status c)
  /\ muted (status c') = muted (status c)
  /\ input_source (status c') = input_source (status c)
  /\ picture_mode (status c') = picture_mode (status c)
  /\ brightness (status c') = brightness (status c)
  /\ contrast (status c') = contrast (status c)
  /\ temperature (status c') = temperature (status c)
  /\ serial_number (status c') = serial_number (status c)
  /\ software_version (status c') = software_version (status c)
  /\ video_wall_enabled (status c') = video_wall_enabled (status c)
  /\ grid_position (status c') = grid_position (status c).

(** The grid invariant of the status: a grid position is recorded exactly
    while video wall mode is recorded as enabled. *)
Definition grid_iff_wall (s : DisplayStatus) : Prop :=
  video_wall_enabled s = true <-> grid_position s <> None.

(** * Properties *)

Ltac break_match :=
  match goal with
  | |- context [match ?x with _ => _ end] => destruct x eqn:?
  | |- context [if ?x then _ else _] => destruct x eqn:?
  end.

Ltac inv_pair :=
  repeat match goal with
    | H : (_, _) = (_, _) |- _ => inversion H; subst; clear H
    end.

(** ** Bytes *)

Lemma byte_val_range (b : byte) : 0 <= byte_val b <= 255.
Proof.
  unfold byte_val. pose proof (Byte.to_N_bounded b). lia.
Qed.

Lemma pack_B_some (v : Z) :
  0 <= v <= 255 -> exists b, pack_B v = Some b /\ byte_val b = v.
Proof.
  intros R. unfold pack_B.
  replace ((0 <=? v) && (v <=? 255)) with true
    by (symmetry; apply andb_true_iff; split; apply Z.leb_le; lia).
  destruct (Byte.of_N (Z.to_N v)) as [b|] eqn:E.
  - exists b. split; [reflexivity|].
    unfold byte_val. rewrite (Byte.to_of_N _ E). lia.
  - apply Byte.of_N_None_iff in E. lia.
Qed.

Lemma pack_B_none (v : Z) : v < 0 \/ 255 < v -> pack_B v = None.
Proof.
  intros R. unfold pack_B.
  destruct ((0 <=? v) && (v <=? 255)) eqn:E; [|reflexivity].
  apply andb_true_iff in E. destruct E as [E1 E2].
  apply Z.leb_le in E1. apply Z.leb_le in E2. lia.
Qed.

Lemma mdc_checksum_range (header cmd id n : Z) (data : bytes) :
  0 <= mdc_checksum header cmd id n data <= 255.
Proof.
  unfold mdc_checksum. change 0xFF with (Z.ones 8).
  rewrite Z.land_ones by lia.
  change (2 ^ 8) with 256. change (Z.ones 8) with 255.
  pose proof (Z.mod_pos_bound (header + cmd + id + n + sum_bytes data) 256).
  lia.
Qed.

(** ** Packet codec *)

(** What [_create_mdc_packet] returns when its fields fit a byte. *)
Lemma create_packet_ok (self : Controller) (cmd : Z) (data : bytes) :
  0 <= cmd <= 255 ->
  0 <= display_id self <= 255 ->
  (List.length data <= 255)%nat ->
  exists h c d l k,
    _create_mdc_packet self cmd data
    = Some ([h; c; d; l] ++ data ++ [k])%list
    /\ byte_val h = 0xAA /\ byte_val c = cmd
    /\ byte_val d = display_id self
    /\ byte_val l = Z.of_nat (List.length data)
    /\ byte_val k
       = mdc_checksum 0xAA cmd (display_id self)
           (Z.of_nat (List.length data)) data.
Proof.
  intros Hc Hd Hl. unfold _create_mdc_packet.
  destruct (pack_B_some 0xAA) as (h & Eh & Vh); [lia|].
  destruct (pack_B_some cmd Hc) as (c & Ec & Vc).
  destruct (pack_B_some (display_id self) Hd) as (d & Ed & Vd).
  destruct (pack_B_some (Z.of_nat (List.length data))) as (l & El & Vl);
    [lia|].
  destruct (pack_B_some _ (mdc_checksum_range 0xAA cmd (display_id self)
                             (Z.of_nat (List.length data)) data))
    as (k & Ek & Vk).
  exists h, c, d, l, k. cbv zeta.
  rewrite Eh, Ec, Ed, El, Ek. repeat split; assumption.
Qed.

(** A payload of more than 255 bytes does not fit the length byte:
    [struct.pack] raises. *)
Lemma create_packet_overlong (self : Controller) (cmd : Z) (data : bytes) :
  (255 < List.length data)%nat ->
  _create_mdc_packet self cmd data = None.
Proof.
  intros Hl. unfold _create_mdc_packet. cbv zeta.
  rewrite (pack_B_none (Z.of_nat (List.length data))) by lia.
  destruct (pack_B 170), (pack_B cmd), (pack_B (display_id self));
    reflexivity.
Qed.

(** The parse of a frame with the right header and display id. *)
Lemma parse_accepted (self : Controller) (h c d l : byte) (rest : bytes) :
  byte_val h = 0xAA ->
  byte_val d = display_id self ->
  _parse_mdc_response self (h :: c :: d :: l :: rest)
  = let data :=
      if 0 <? byte_val l then firstn (Z.to_nat (byte_val l)) rest else [] in
    let response := h :: c :: d :: l :: rest in
    ((if 4 + byte_val l <? Z.of_nat (List.length response) then
        match nth_error rest (Z.to_nat (byte_val l)) with
        | Some k =>
            let expected :=
              mdc_checksum 0xAA (byte_val c) (display_id self)
                (byte_val l) data in
            if negb (byte_val k =? expected)
            then [checksum_warning expected (byte_val k)]
            else []
        | None => []
        end
      else []),
     Parsed (byte_val c) data (display_id self) response).
Proof.
  intros Hh Hd. unfold _parse_mdc_response.
  replace (Z.of_nat (List.length (h :: c :: d :: l :: rest)) <? 4)
    with false
    by (symmetry; apply Z.ltb_ge; cbn [List.length]; lia).
  cbn [firstn skipn]. rewrite Hh, Hd, !Z.eqb_refl. cbn [negb]. cbv zeta.
  pose proof (byte_val_range l) as Rl.
  replace (Z.to_nat (4 + byte_val l))
    with (S (S (S (S (Z.to_nat (byte_val l)))))) by lia.
  cbn [nth_error]. reflexivity.
Qed.

Lemma parse_invalid_header (self : Controller) (h c d l : byte)
    (rest : bytes) :
  byte_val h <> 0xAA ->
  _parse_mdc_response self (h :: c :: d :: l :: rest)
  = ([], Failure "Invalid header").
Proof.
  intros Hh. unfold _parse_mdc_response.
  replace (Z.of_nat (List.length (h :: c :: d :: l :: rest)) <? 4)
    with false
    by (symmetry; apply Z.ltb_ge; cbn [List.length]; lia).
  cbn [firstn]. apply Z.eqb_neq in Hh. rewrite Hh. reflexivity.
Qed.

Lemma parse_id_mismatch (self : Controller) (h c d l : byte)
    (rest : bytes) :
  byte_val h = 0xAA ->
  byte_val d <> display_id self ->
  _parse_mdc_response self (h :: c :: d :: l :: rest)
  = ([], Failure "Display ID mismatch").
Proof.
  intros Hh Hd. unfold _parse_mdc_response.
  replace (Z.of_nat (List.length (h :: c :: d :: l :: rest)) <? 4)
    with false
    by (symmetry; apply Z.ltb_ge; cbn [List.length]; lia).
  cbn [firstn]. apply Z.eqb_neq in Hd. rewrite Hh, Hd. reflexivity.
Qed.

Lemma parse_too_short (self : Controller) (response : bytes) :
  (List.length response < 4)%nat ->
  _parse_mdc_response self response = ([], Failure "Response too short").
Proof.
  intros Hl. unfold _parse_mdc_response.
  replace (Z.of_nat (List.length response) <? 4) with true
    by (symmetry; apply Z.ltb_lt; lia).
  reflexivity.
Qed.

(** The parser returns a parsed response or a failure, nothing else. *)
Lemma parse_shape (self : Controller) (response : bytes) :
  match snd (_parse_mdc_response self response) with
  | Sent _ => False
  | _ => True
  end.
Proof.
  unfold _parse_mdc_response.
  destruct (Z.of_nat (List.length response) <? 4); [exact I|].
  destruct (firstn 4 response) as [|h [|c [|d [|l [|x t]]]]]; try exact I.
  destruct (negb (byte_val h =? 170)); [exact I|].
  destruct (negb (byte_val d =? display_id self)); exact I.
Qed.

(** C1 on the code: the POWER command for display 1 with payload [01] is
    encoded as AA 11 01 01 01 BE, not as the AA 11 01 01 01 14 of the
    claim: [_create_mdc_packet] adds the 0xAA header into the checksum,
    which the frame of the claim leaves out. *)
Theorem power_on_packet_bytes :
  _create_mdc_packet (new_controller 1) (MDC.value POWER) [x01]
  = Some [xaa; x11; x01; x01; x01; xbe].
Proof. vm_compute. reflexivity. Qed.

(** The encoder does not produce AA 11 01 01 01 14. *)
Lemma power_on_packet_is_not_14 :
  _create_mdc_packet (new_controller 1) (MDC.value POWER) [x01]
  <> Some [xaa; x11; x01; x01; x01; x14].
Proof. vm_compute. intros E. inversion E. Qed.

(** The backend's table has the frame of the claim: for display 1 its
    power-on frame is AA 11 01 01 01 14, with a checksum that leaves the
    header out, as do its power-off and volume frames. The two senders of
    the repository disagree on the same command. *)
Lemma backend_frames_leave_header_out :
  Backend.power_on 1 = Some [xaa; x11; x01; x01; x01; x14]
  /\ Backend.power_off 1 = Some [xaa; x11; x01; x01; x00; x13]
  /\ Backend.volume_set 1 40 = Some [xaa; x12; x01; x01; x28; x3c]
  /\ _create_mdc_packet (new_controller 1) (MDC.value POWER) [x01]
     <> Backend.power_on 1.
Proof.
  vm_compute. repeat split. intros E. inversion E.
Qed.

(** C2: for a command code and a display id that are bytes and a payload
    of at most 255 bytes, the encoder returns a frame, and parsing that
    frame with the same controller succeeds, logs nothing, and gives back
    the command code and the payload. *)
Theorem decode_encode_roundtrip (self : Controller) (cmd : Z)
    (payload : bytes) :
  0 <= cmd <= 255 ->
  0 <= display_id self <= 255 ->
  (List.length payload <= 255)%nat ->
  exists frame,
    _create_mdc_packet self cmd payload = Some frame
    /\ _parse_mdc_response self frame
       = ([], Parsed cmd payload (display_id self) frame).
Proof.
  intros Hc Hd Hl.
  destruct (create_packet_ok self cmd payload Hc Hd Hl)
    as (h & c & d & l & k & E & Vh & Vc & Vd & Vl & Vk).
  eexists. split; [exact E|].
  cbn [app]. rewrite (parse_accepted self h c d l _ Vh Vd). cbv zeta.
  assert (Hdata :
    (if 0 <? byte_val l
     then firstn (Z.to_nat (byte_val l)) (payload ++ [k]) else [])
    = payload).
  { rewrite Vl. destruct payload as [|b p].
    - reflexivity.
    - replace (0 <? Z.of_nat (List.length (b :: p))) with true
        by (symmetry; apply Z.ltb_lt; cbn [List.length]; lia).
      rewrite Nat2Z.id, firstn_app, firstn_all, Nat.sub_diag.
      cbn [firstn]. apply app_nil_r. }
  rewrite Hdata.
  replace (4 + byte_val l
           <? Z.of_nat (List.length (h :: c :: d :: l :: payload ++ [k])))
    with true
    by (symmetry; apply Z.ltb_lt; cbn [List.length];
        rewrite length_app; cbn [List.length]; lia).
  rewrite Vl, Nat2Z.id, nth_error_app2, Nat.sub_diag by lia.
  cbn [nth_error]. rewrite Vk, Vc, Z.eqb_refl. reflexivity.
Qed.

Lemma decode_encode_roundtrip_witness :
  exists frame,
    _create_mdc_packet (new_controller 7) (MDC.value VOLUME) [x28]
    = Some frame
    /\ _parse_mdc_response (new_controller 7) frame
       = ([], Parsed (MDC.value VOLUME) [x28] 7 frame).
Proof.
  apply (decode_encode_roundtrip (new_controller 7) (MDC.value VOLUME)
           [x28]); simpl; lia.
Defined.

(** C3: a frame with the 0xAA header, the controller's display id, the
    declared number of payload bytes and then a byte that is not the
    computed checksum still parses to a success carrying the command code
    and the whole payload; the mismatch only puts a warning in the log. *)
Theorem checksum_mismatch_tolerated (self : Controller) (h c d l k : byte)
    (payload trailing : bytes) :
  byte_val h = 0xAA ->
  byte_val d = display_id self ->
  byte_val l = Z.of_nat (List.length payload) ->
  byte_val k
  <> mdc_checksum 0xAA (byte_val c) (display_id self) (byte_val l) payload ->
  let frame := ([h; c; d; l] ++ payload ++ k :: trailing)%list in
  _parse_mdc_response self frame
  = ([checksum_warning
        (mdc_checksum 0xAA (byte_val c) (display_id self) (byte_val l)
           payload)
        (byte_val k)],
     Parsed (byte_val c) payload (display_id self) frame).
Proof.
  intros Hh Hd Hl Hk frame. subst frame. cbn [app].
  rewrite (parse_accepted self h c d l _ Hh Hd). cbv zeta.
  assert (Hdata :
    (if 0 <? byte_val l
     then firstn (Z.to_nat (byte_val l)) (payload ++ k :: trailing) else [])
    = payload).
  { rewrite Hl. destruct payload as [|b p].
    - reflexivity.
    - replace (0 <? Z.of_nat (List.length (b :: p))) with true
        by (symmetry; apply Z.ltb_lt; cbn [List.length]; lia).
      rewrite Nat2Z.id, firstn_app, firstn_all, Nat.sub_diag.
      cbn [firstn]. apply app_nil_r. }
  rewrite Hdata.
  replace (4 + byte_val l
           <? Z.of_nat
                (List.length (h :: c :: d :: l :: payload ++ k :: trailing)))
    with true
    by (symmetry; apply Z.ltb_lt; cbn [List.length];
        rewrite length_app; cbn [List.length]; lia).
  rewrite Hl at 1. rewrite Nat2Z.id, nth_error_app2, Nat.sub_diag by lia.
  cbn [nth_error]. apply Z.eqb_neq in Hk. rewrite Hk. reflexivity.
Qed.

Lemma checksum_mismatch_tolerated_witness :
  _parse_mdc_response (new_controller 1)
    [xaa; x11; x01; x01; x01; x14]
  = (["Checksum mismatch: expected 190, got 20"%string],
     Parsed 0x11 [x01] 1 [xaa; x11; x01; x01; x01; x14]).
Proof.
  apply (checksum_mismatch_tolerated (new_controller 1)
           xaa x11 x01 x01 x14 [x01] []);
    vm_compute; first [reflexivity | discriminate].
Defined.

(** C4, as stated, fails: a five-byte frame that declares five payload
    bytes and carries one is parsed to a success with the one byte. *)
Lemma short_payload_is_accepted :
  let frame := [xaa; x11; x01; x05; x01] in
  (4 <= List.length frame)%nat
  /\ Z.of_nat (List.length frame - 4) < byte_val x05
  /\ _parse_mdc_response (new_controller 1) frame
     = ([], Parsed 0x11 [x01] 1 frame).
Proof.
  cbv zeta. split; [cbn [List.length]; lia|].
  split; vm_compute; reflexivity.
Qed.

(** C4, as the code has it: the declared payload length is never compared
    with the bytes received. When it exceeds the bytes that follow the
    four-byte header, a frame with the 0xAA header and the controller's
    display id parses to a success whose payload is all the bytes after
    the header, and no checksum is compared; only a wrong header or a
    wrong display id makes the parse fail. *)
Theorem declared_length_not_checked (self : Controller) (h c d l : byte)
    (rest : bytes) :
  Z.of_nat (List.length rest) < byte_val l ->
  let frame := h :: c :: d :: l :: rest in
  _parse_mdc_response self frame
  = if negb (byte_val h =? 0xAA) then ([], Failure "Invalid header")
    else if negb (byte_val d =? display_id self)
    then ([], Failure "Display ID mismatch")
    else ([], Parsed (byte_val c) rest (display_id self) frame).
Proof.
  intros Hl frame. subst frame.
  destruct (Z.eqb_spec (byte_val h) 0xAA) as [Hh|Hh]; cbn [negb].
  - destruct (Z.eqb_spec (byte_val d) (display_id self)) as [Hd|Hd];
      cbn [negb].
    + rewrite (parse_accepted self h c d l rest Hh Hd). cbv zeta.
      replace (0 <? byte_val l) with true by (symmetry; apply Z.ltb_lt; lia).
      rewrite firstn_all2 by lia.
      replace (4 + byte_val l
               <? Z.of_nat (List.length (h :: c :: d :: l :: rest)))
        with false
        by (symmetry; apply Z.ltb_ge; cbn [List.length]; lia).
      reflexivity.
    + apply parse_id_mismatch; assumption.
  - apply parse_invalid_header; assumption.
Qed.

Lemma declared_length_not_checked_witness :
  _parse_mdc_response (new_controller 1) [xaa; x2b; x01; x03; x2d]
  = ([], Parsed 0x2B [x2d] 1 [xaa; x2b; x01; x03; x2d]).
Proof.
  apply (declared_length_not_checked (new_controller 1)
           xaa x2b x01 x03 [x2d]).
  vm_compute. reflexivity.
Defined.

(** ** Session and command execution *)

Section ControllerFacts.
Context {W : Type} {T : Transport W}.

Abbreviation St := (Machine W).

(** A loop rule for [send_loop]: what every iteration keeps ([P]) holds
    when the loop runs out of attempts, and what every returning iteration
    establishes ([Q]) holds when the loop returns. *)
Lemma send_loop_rule (P : St -> Prop) (Q : Result -> St -> Prop)
    (command : MDCCommand) (data : bytes) (expect_response : bool) :
  (forall attempt m, P m ->
     match send_attempt command data expect_response attempt m with
     | (None, m') => P m'
     | (Some r, m') => Q r m'
     end) ->
  forall attempts m, P m ->
    match send_loop command data expect_response attempts m with
    | (None, m') => P m'
    | (Some r, m') => Q r m'
    end.
Proof.
  intros Hstep attempts.
  induction attempts as [|attempt rest IH]; intros m Hm; cbn [send_loop].
  - exact Hm.
  - specialize (Hstep attempt m Hm).
    destruct (send_attempt command data expect_response attempt m)
      as [[r|] m'].
    + exact Hstep.
    + apply IH. exact Hstep.
Qed.

(** [connect] on a disconnected session keeps the invariant; on any
    session it leaves [responsive] and [max_retries] alone. *)
Lemma connect_clean (m : St) :
  connected (ctl m) = false ->
  clean_while_connected (ctl (snd (connect m))).
Proof.
  intros Hc. unfold connect, clean_while_connected.
  destruct (open_connection (world m)) as [[| |] w]; cbn; intros; congruence.
Qed.

Lemma connect_responsive (m : St) :
  responsive (status (ctl (snd (connect m)))) = responsive (status (ctl m)).
Proof.
  unfold connect.
  destruct (open_connection (world m)) as [[| |] w]; reflexivity.
Qed.

Lemma disconnect_responsive (m : St) :
  responsive (status (ctl (disconnect m))) = responsive (status (ctl m)).
Proof.
  unfold disconnect. destruct (streams (ctl m)); [|reflexivity].
  destruct (close_wait (world m)); reflexivity.
Qed.

Lemma log_warnings_ctl (texts : list string) (m : St) :
  ctl (log_warnings texts m) = ctl m.
Proof.
  unfold log_warnings. revert m.
  induction texts as [|t texts IH]; intros m; cbn [fold_left].
  - reflexivity.
  - rewrite IH. reflexivity.
Qed.

Lemma on_exception_ctl (attempt : Z) (m : St) :
  ctl (on_exception attempt m)
  = with_status (fun s => with_error_count (error_count s + 1) s)
      (with_connected false (ctl m)).
Proof.
  unfold on_exception. cbn. destruct (_ <? _); reflexivity.
Qed.

(** One iteration keeps the invariant. *)
Lemma send_attempt_clean (command : MDCCommand) (data : bytes)
    (expect_response : bool) (attempt : Z) (m : St) :
  clean_while_connected (ctl m) ->
  clean_while_connected
    (ctl (snd (send_attempt command data expect_response attempt m))).
Proof.
  intros Hm. unfold send_attempt.
  assert (Hup : forall up m1,
    (if connected (ctl m) then (true, m) else connect m) = (up, m1) ->
    clean_while_connected (ctl m1)).
  { intros up m1 E. destruct (connected (ctl m)) eqn:Ec.
    - inversion E; subst. exact Hm.
    - pose proof (connect_clean m Ec) as Hk. rewrite E in Hk. exact Hk. }
  destruct (if connected (ctl m) then (true, m) else connect m)
    as [up m1] eqn:E1.
  specialize (Hup up m1 eq_refl).
  unfold clean_while_connected in *.
  repeat break_match; cbn [snd]; inv_pair;
    rewrite ?on_exception_ctl, ?log_warnings_ctl; cbn;
    rewrite ?log_warnings_ctl; cbn; intros; try congruence; auto.
Qed.
Lemma send_command_clean (command : MDCCommand) (data : bytes)
    (expect_response : bool) (m : St) :
  clean_while_connected (ctl m) ->
  clean_while_connected
    (ctl (snd (send_command command data expect_response m))).
Proof.
  intros Hm. unfold send_command.
  pose proof (send_loop_rule
                (fun m => clean_while_connected (ctl m))
                (fun _ m => clean_while_connected (ctl m))
                command data expect_response) as R.
  assert (Hstep : forall attempt m0, clean_while_connected (ctl m0) ->
    match send_attempt command data expect_response attempt m0 with
    | (None, m') => clean_while_connected (ctl m')
    | (Some _, m') => clean_while_connected (ctl m')
    end).
  { intros attempt m0 H0.
    pose proof (send_attempt_clean command data expect_response attempt m0 H0)
      as Hk.
    destruct (send_attempt command data expect_response attempt m0)
      as [[r|] m']; exact Hk. }
  specialize (R Hstep (range (max_retries (ctl m))) m Hm).
  destruct (send_loop command data expect_response
              (range (max_retries (ctl m))) m) as [[r|] m'];
    cbn [snd]; [exact R|].
  unfold clean_while_connected in *. cbn. exact R.
Qed.

Lemma send_attempt_responsive (command : MDCCommand) (data : bytes)
    (expect_response : bool) (attempt : Z) (m : St) :
  responsive_after expect_response (responsive (status (ctl m)))
    (fst (send_attempt command data expect_response attempt m))
    (snd (send_attempt command data expect_response attempt m)).
Proof.
  unfold send_attempt.
  assert (Hup : forall up m1,
    (if connected (ctl m) then (true, m) else connect m) = (up, m1) ->
    responsive (status (ctl m1)) = responsive (status (ctl m))).
  { intros up m1 E. destruct (connected (ctl m)).
    - inversion E; subst. reflexivity.
    - pose proof (connect_responsive m) as Hk. rewrite E in Hk. exact Hk. }
  destruct (if connected (ctl m) then (true, m) else connect m)
    as [up m1] eqn:E1.
  specialize (Hup up m1 eq_refl). rewrite <- Hup.
  repeat break_match; unfold responsive_after; cbn [fst snd] in *;
    inv_pair; try discriminate;
    try match goal with
      | H : _parse_mdc_response ?c ?r = (_, Sent _) |- _ =>
          pose proof (parse_shape c r) as X; rewrite H in X; destruct X
      end;
    rewrite ?on_exception_ctl, ?log_warnings_ctl; cbn;
    rewrite ?log_warnings_ctl; auto; try congruence.
Qed.
Lemma send_command_responsive (command : MDCCommand) (data : bytes)
    (expect_response : bool) (m : St) :
  match fst (send_command command data expect_response m) with
  | Parsed _ _ _ _ =>
      expect_response = true
      /\ responsive
           (status (ctl (snd (send_command command data expect_response m))))
         = true
  | Sent _ =>
      expect_response = false
      /\ responsive
           (status (ctl (snd (send_command command data expect_response m))))
         = responsive (status (ctl m))
  | Failure _ =>
      responsive
        (status (ctl (snd (send_command command data expect_response m))))
      = false
  end.
Proof.
  unfold send_command.
  pose proof (send_loop_rule
    (fun m' => responsive (status (ctl m')) = responsive (status (ctl m)))
    (fun r m' =>
       responsive_after expect_response (responsive (status (ctl m)))
         (Some r) m')
    command data expect_response) as R.
  assert (Hstep : forall attempt m0,
    responsive (status (ctl m0)) = responsive (status (ctl m)) ->
    match send_attempt command data expect_response attempt m0 with
    | (None, m') =>
        responsive (status (ctl m')) = responsive (status (ctl m))
    | (Some r, m') =>
        responsive_after expect_response (responsive (status (ctl m)))
          (Some r) m'
    end).
  { intros attempt m0 H0.
    pose proof (send_attempt_responsive command data expect_response
                  attempt m0) as Hk.
    rewrite H0 in Hk.
    destruct (send_attempt command data expect_response attempt m0)
      as [[r|] m']; exact Hk. }
  specialize (R Hstep (range (max_retries (ctl m))) m eq_refl).
  destruct (send_loop command data expect_response
              (range (max_retries (ctl m))) m) as [[r|] m'];
    cbn [fst snd].
  - unfold responsive_after in R. destruct r; [exact R|exact R|destruct R].
  - reflexivity.
Qed.
(** A failed parse logs no checksum warning. *)
Lemma parse_failure_silent (self : Controller) (response : bytes)
    (error : string) :
  snd (_parse_mdc_response self response) = Failure error ->
  fst (_parse_mdc_response self response) = [].
Proof.
  unfold _parse_mdc_response.
  destruct (Z.of_nat (List.length response) <? 4); [reflexivity|].
  destruct (firstn 4 response) as [|h [|c [|d [|l [|x t]]]]];
    try reflexivity.
  destruct (negb (byte_val h =? 170)); [reflexivity|].
  destruct (negb (byte_val d =? display_id self)); [reflexivity|].
  cbn [snd]. discriminate.
Qed.

(** A failed connection attempt: the controller stays disconnected and
    only the world and the trace move on. *)
Lemma connect_failure (m : St) (o : connect_outcome) (w : W) :
  open_connection (world m) = (o, w) ->
  o <> ConnectOk ->
  fst (connect m) = false
  /\ world (snd (connect m)) = w
  /\ events (snd (connect m)) = (events m ++ [EvConnect o])%list
  /\ connected (ctl (snd (connect m))) = connected (ctl m)
  /\ max_retries (ctl (snd (connect m))) = max_retries (ctl m).
Proof.
  intros E Ho. unfold connect. rewrite E.
  destruct o; [congruence| |]; cbn; repeat split; reflexivity.
Qed.

(** While every connection attempt fails, the loop does nothing but
    connect, once per attempt, and runs out of attempts. *)
Lemma send_loop_connect_fails (command : MDCCommand) (data : bytes)
    (expect_response : bool) (attempts : list Z) :
  forall m : St,
    connected (ctl m) = false ->
    connect_fails (List.length attempts) (world m) ->
    exists outcomes m',
      send_loop command data expect_response attempts m = (None, m')
      /\ events m' = (events m ++ map EvConnect outcomes)%list
      /\ List.length outcomes = List.length attempts
      /\ Forall (fun o => o <> ConnectOk) outcomes
      /\ connected (ctl m') = false
      /\ max_retries (ctl m') = max_retries (ctl m).
Proof.
  induction attempts as [|attempt rest IH]; intros m Hc Hw.
  - exists [], m. cbn. rewrite app_nil_r.
    repeat split; [constructor | assumption].
  - cbn [List.length connect_fails] in Hw. destruct Hw as [Ho Hw].
    destruct (open_connection (world m)) as [o w] eqn:E.
    cbn [fst snd] in Ho, Hw.
    destruct (connect_failure m o w E Ho) as (F1 & F2 & F3 & F4 & F5).
    cbn [send_loop]. unfold send_attempt. rewrite Hc.
    destruct (connect m) as [up m1]. cbn [fst snd] in F1, F2, F3, F4, F5.
    subst up. cbn [negb].
    destruct (IH m1) as (outcomes & m' & L1 & L2 & L3 & L4 & L5 & L6).
    + congruence.
    + rewrite F2. exact Hw.
    + exists (o :: outcomes), m'. rewrite L1, L2, F3, <- app_assoc.
      cbn. repeat split; try congruence. constructor; assumption.
Qed.
(** C5, as the code has it: a response that parses to a protocol mismatch
    (wrong header or wrong display id) does not end [send_command]. The
    iteration that received it logs a warning and changes nothing in the
    controller, which stays connected, and the loop goes on with the
    attempts that remain, sending the frame again; the failure is the one
    returned after the last attempt. *)
Theorem mismatch_response_is_retried (command : MDCCommand) (data : bytes)
    (attempt : Z) (rest : list Z) (m m1 : St) (packet response : bytes)
    (w1 w2 : W) (error : string) :
  (if connected (ctl m) then (true, m) else connect m) = (true, m1) ->
  _create_mdc_packet (ctl m1) (MDC.value command) data = Some packet ->
  streams (ctl m1) = true ->
  write_drain packet (world m1) = (WriteOk, w1) ->
  read_1024 w1 = (ReadBytes response, w2) ->
  snd (_parse_mdc_response (ctl m1) response) = Failure error ->
  error = "Invalid header"%string \/ error = "Display ID mismatch"%string ->
  send_loop command data true (attempt :: rest) m
  = send_loop command data true rest
      {| ctl := ctl m1;
         world := w2;
         events :=
           (events m1
            ++ [EvWrite packet WriteOk; EvRead (ReadBytes response);
                EvWarning ("Command " ++ MDC.name command ++ " failed: "
                             ++ error)%string])%list |}.
Proof.
  intros Hup Hpacket Hstreams Hwrite Hread Hparse Herror.
  pose proof (parse_failure_silent _ _ _ Hparse) as Hsilent.
  assert (Hne : exists b t, response = b :: t).
  { destruct response as [|b t]; [|eauto].
    rewrite parse_too_short in Hparse by (cbn; lia). cbn in Hparse.
    destruct Herror as [-> | ->]; discriminate. }
  destruct Hne as (b & t & ->).
  cbn [send_loop]. unfold send_attempt at 1.
  rewrite Hup. cbn [negb]. rewrite Hpacket, Hstreams. cbn [negb].
  rewrite Hwrite. cbn [world emit set_world]. rewrite Hread.
  cbn [ctl emit set_world].
  destruct (_parse_mdc_response (ctl m1) (b :: t)) as [warnings result].
  cbn [fst snd] in Hparse, Hsilent. subst warnings result.
  cbn [log_warnings fold_left].
  unfold emit, set_world. cbn [ctl world events].
  rewrite <- !app_assoc. reflexivity.
Qed.

(** C6, as the code has it: with [max_retries = 3] on a disconnected
    session and a world that refuses every connection, [send_command]
    makes exactly three connection attempts and nothing else (no frame is
    written, nothing is read, and no delay is inserted between the
    attempts), then returns the failure for exhausted attempts with
    [responsive] false. *)
Theorem failed_connects_exhaust_retries (command : MDCCommand)
    (data : bytes) (expect_response : bool) (m : St) :
  max_retries (ctl m) = 3 ->
  connected (ctl m) = false ->
  connect_fails 3 (world m) ->
  exists o1 o2 o3 m',
    send_command command data expect_response m
    = (Failure (exhausted command 3), m')
    /\ events m'
       = (events m ++ [EvConnect o1; EvConnect o2; EvConnect o3])%list
    /\ o1 <> ConnectOk /\ o2 <> ConnectOk /\ o3 <> ConnectOk
    /\ connected (ctl m') = false
    /\ responsive (status (ctl m')) = false.
Proof.
  intros Hr Hc Hw. unfold send_command. rewrite Hr.
  destruct (send_loop_connect_fails command data expect_response
              (range 3) m Hc Hw)
    as (outcomes & m' & L1 & L2 & L3 & L4 & L5 & L6).
  rewrite L1.
  destruct outcomes as [|o1 [|o2 [|o3 [|o4 t]]]]; try discriminate L3.
  inversion L4 as [|? ? H1 L4']; subst.
  inversion L4' as [|? ? H2 L4'']; subst.
  inversion L4'' as [|? ? H3 _]; subst.
  eexists o1, o2, o3, _. split; [|repeat split].
  - cbn [update ctl with_status max_retries]. rewrite L6, Hr. reflexivity.
  - exact L2.
  - exact H1.
  - exact H2.
  - exact H3.
  - exact L5.
  - reflexivity.
Qed.

(** C9, as the code has it: [send_command] leaves [responsive] true when
    it returns a parsed response, which it does only for a command that
    expects one, and false when it returns a failure; when it returns the
    acknowledgement of a command sent without waiting for a response it
    leaves [responsive] as it was. [connect] and [disconnect] never change
    it. *)
Theorem responsive_follows_send_command (command : MDCCommand)
    (data : bytes) (expect_response : bool) (m : St) :
  match fst (send_command command data expect_response m) with
  | Parsed _ _ _ _ =>
      expect_response = true
      /\ responsive
           (status (ctl (snd (send_command command data expect_response m))))
         = true
  | Sent _ =>
      expect_response = false
      /\ responsive
           (status (ctl (snd (send_command command data expect_response m))))
         = responsive (status (ctl m))
  | Failure _ =>
      responsive
        (status (ctl (snd (send_command command data expect_response m))))
      = false
  end
  /\ responsive (status (ctl (snd (connect m))))
     = responsive (status (ctl m))
  /\ responsive (status (ctl (disconnect m)))
     = responsive (status (ctl m)).
Proof.
  split; [apply send_command_responsive|].
  split; [apply connect_responsive | apply disconnect_responsive].
Qed.
End ControllerFacts.

(** C5, as stated, fails: display 1 is answered three times with a frame
    that is a protocol mismatch; after the first such response the frame
    is written and a response read twice more, and the failure returned is
    the one for exhausted attempts. *)
Lemma mismatch_does_not_stop_retries :
  let run := send_command POWER [x01] true
               (boot (new_controller 1) answers_wrongly) in
  snd (_parse_mdc_response (new_controller 1) wrong_header)
  = Failure "Invalid header"
  /\ snd (_parse_mdc_response (new_controller 1) foreign_display)
     = Failure "Display ID mismatch"
  /\ count is_write (events (snd run)) = 3%nat
  /\ count is_read (events (snd run)) = 3%nat
  /\ count is_sleep (events (snd run)) = 0%nat
  /\ fst run = Failure "Command POWER failed after 3 attempts".
Proof. vm_compute. repeat split; reflexivity. Qed.

Lemma mismatch_response_is_retried_witness :
  send_loop POWER [x01] true [0; 1; 2]
    (boot (new_controller 1) answers_wrongly)
  = send_loop POWER [x01] true [1; 2]
      {| ctl := ctl (snd (connect (boot (new_controller 1)
                                     answers_wrongly)));
         world :=
           {| connects := [];
              writes := [WriteOk; WriteOk];
              reads := [ReadBytes foreign_display; ReadBytes wrong_header];
              clock := 3 |};
         events :=
           [EvConnect ConnectOk;
            EvWrite [xaa; x11; x01; x01; x01; xbe] WriteOk;
            EvRead (ReadBytes wrong_header);
            EvWarning "Command POWER failed: Invalid header"] |}.
Proof.
  pose proof (mismatch_response_is_retried POWER [x01] 0 [1; 2]
           (boot (new_controller 1) answers_wrongly)
           (snd (connect (boot (new_controller 1) answers_wrongly)))
           [xaa; x11; x01; x01; x01; xbe] wrong_header
           {| connects := [];
              writes := [WriteOk; WriteOk];
              reads := [ReadBytes wrong_header; ReadBytes foreign_display;
                        ReadBytes wrong_header];
              clock := 2 |}
           {| connects := [];
              writes := [WriteOk; WriteOk];
              reads := [ReadBytes foreign_display; ReadBytes wrong_header];
              clock := 3 |}
           "Invalid header") as H.
  vm_compute in H. vm_compute.
  apply H; try reflexivity. left. reflexivity.
Defined.

(** C6, as stated, fails: against a display that never accepts a
    connection the three attempts follow one another with no sleep between
    them; the only time that passes is that of the three attempts. *)
Lemma no_delay_after_failed_connect :
  let run := send_command POWER [x01] true
               (boot (new_controller 1) unreachable) in
  events (snd run)
  = [EvConnect ConnectTimeout; EvConnect ConnectTimeout;
     EvConnect ConnectTimeout]
  /\ count is_sleep (events (snd run)) = 0%nat
  /\ clock (world (snd run)) = 3.
Proof. vm_compute. repeat split; reflexivity. Qed.

Lemma failed_connects_exhaust_retries_witness :
  exists o1 o2 o3 m',
    send_command POWER [x01] true (boot (new_controller 1) unreachable)
    = (Failure "Command POWER failed after 3 attempts", m')
    /\ events m' = [EvConnect o1; EvConnect o2; EvConnect o3]
    /\ o1 <> ConnectOk /\ o2 <> ConnectOk /\ o3 <> ConnectOk
    /\ connected (ctl m') = false
    /\ responsive (status (ctl m')) = false.
Proof.
  apply (failed_connects_exhaust_retries POWER [x01] true
           (boot (new_controller 1) unreachable)).
  - reflexivity.
  - reflexivity.
  - cbn. repeat split; discriminate.
Defined.

(** C9, as stated, fails. After a power query has been answered
    ([responsive] true), a command sent without waiting for a response
    succeeds with nothing read and [responsive] still true; and after a
    disconnect, a health check whose connection attempt times out leaves
    [responsive] true while [online] is false. *)
Lemma responsive_outlives_its_exchange :
  let m1 := snd (get_power_status (boot (new_controller 1) answers_once)) in
  let run := send_command POWER [x01] false m1 in
  let m3 := snd (health_check gather_in_turn (disconnect m1)) in
  responsive (status (ctl m1)) = true
  /\ fst run = Sent "Command POWER sent"
  /\ count is_read (events (snd run)) = count is_read (events m1)
  /\ responsive (status (ctl (snd run))) = true
  /\ last (events m3) (EvSleep 0) = EvConnect ConnectTimeout
  /\ online (status (ctl m3)) = false
  /\ responsive (status (ctl m3)) = true.
Proof. vm_compute. repeat split; reflexivity. Qed.

(** ** Setters, queries and health check *)

Section OperationFacts.
Context {W : Type} {T : Transport W}.

Abbreviation St := (Machine W).

(** Writing a status field other than [error_count] keeps the invariant. *)
Lemma record_clean (record : DisplayStatus -> DisplayStatus) (m : St) :
  (forall s, error_count (record s) = error_count s) ->
  clean_while_connected (ctl m) ->
  clean_while_connected (ctl (update (with_status record) m)).
Proof.
  unfold clean_while_connected. cbn. intros Hr Hm Hc.
  rewrite Hr. auto.
Qed.

Lemma send_and_record_clean (command : MDCCommand) (data : bytes)
    (record : DisplayStatus -> DisplayStatus) (m : St) :
  (forall s, error_count (record s) = error_count s) ->
  clean_while_connected (ctl m) ->
  clean_while_connected (ctl (snd (send_and_record command data record m))).
Proof.
  intros Hr Hm. unfold send_and_record.
  pose proof (send_command_clean command data true m Hm) as Hk.
  destruct (send_command command data true m) as [result m'].
  cbn [snd] in Hk. destruct (success result); cbn [snd]; [|exact Hk].
  apply record_clean; assumption.
Qed.

Lemma get_power_status_clean (m : St) :
  clean_while_connected (ctl m) ->
  clean_while_connected (ctl (snd (get_power_status m))).
Proof.
  intros Hm. unfold get_power_status.
  pose proof (send_command_clean POWER_STATUS [] true m Hm) as Hk.
  destruct (send_command POWER_STATUS [] true m) as [result m'].
  cbn [snd] in Hk.
  destruct result as [c [|b d] i r | msg | err]; cbn [snd]; exact Hk.
Qed.

Lemma get_temperature_clean (m : St) :
  clean_while_connected (ctl m) ->
  clean_while_connected (ctl (snd (get_temperature m))).
Proof.
  intros Hm. unfold get_temperature.
  pose proof (send_command_clean CURRENT_TEMP [] true m Hm) as Hk.
  destruct (send_command CURRENT_TEMP [] true m) as [result m'].
  cbn [snd] in Hk.
  destruct result as [c [|b d] i r | msg | err]; cbn [snd]; exact Hk.
Qed.

Lemma text_query_clean (command : MDCCommand)
    (record : string -> DisplayStatus -> DisplayStatus) (m : St) :
  (forall t s, error_count (record t s) = error_count s) ->
  clean_while_connected (ctl m) ->
  clean_while_connected (ctl (snd (text_query command record m))).
Proof.
  intros Hr Hm. unfold text_query.
  pose proof (send_command_clean command [] true m Hm) as Hk.
  destruct (send_command command [] true m) as [result m'].
  cbn [snd] in Hk.
  destruct result as [c [|b d] i r | msg | err]; cbn [snd]; try exact Hk.
  apply record_clean; [apply Hr | exact Hk].
Qed.

Lemma set_video_wall_mode_clean (enabled : bool)
    (h_monitors v_monitors h_position v_position : Z) (m : St) :
  clean_while_connected (ctl m) ->
  clean_while_connected
    (ctl (snd (set_video_wall_mode enabled h_monitors v_monitors
                 h_position v_position m))).
Proof.
  intros Hm. unfold set_video_wall_mode.
  destruct (_ || _); [exact Hm|].
  destruct (_ || _); [exact Hm|].
  match goal with
  | |- context [send_command ?c ?d true m] =>
      pose proof (send_command_clean c d true m Hm) as Hk;
      destruct (send_command c d true m) as [result m']
  end.
  cbn [snd] in Hk. destruct (success result); cbn [snd]; [|exact Hk].
  destruct enabled; repeat (apply record_clean; [reflexivity|]); exact Hk.
Qed.

Lemma disconnect_clean (m : St) :
  clean_while_connected (ctl (disconnect m)).
Proof.
  unfold disconnect, clean_while_connected.
  destruct (streams (ctl m)); [destruct (close_wait (world m))|];
    cbn; discriminate.
Qed.

Lemma health_check_clean
    (gather : St -> (gathered * gathered * gathered) * St) (m : St) :
  (forall m0, clean_while_connected (ctl m0) ->
              clean_while_connected (ctl (snd (gather m0)))) ->
  clean_while_connected (ctl m) ->
  clean_while_connected (ctl (snd (health_check gather m))).
Proof.
  intros Hg Hm. unfold health_check.
  assert (Hup : forall up m1,
    (if negb (connected (ctl m)) then connect m else (true, m)) = (up, m1) ->
    clean_while_connected (ctl m1)).
  { intros up m1 E. destruct (connected (ctl m)) eqn:Ec; cbn [negb] in E.
    - inversion E; subst. exact Hm.
    - pose proof (connect_clean m Ec) as Hk. rewrite E in Hk. exact Hk. }
  destruct (if negb (connected (ctl m)) then connect m else (true, m))
    as [up m1].
  specialize (Hup up m1 eq_refl).
  destruct up; cbn [negb snd]; [|exact Hup].
  pose proof (get_power_status_clean m1 Hup) as H2.
  destruct (get_power_status m1) as [[power_result power_on] m2].
  cbn [snd] in H2.
  pose proof (get_temperature_clean m2 H2) as H3.
  destruct (get_temperature m2) as [[temp_result temp_key] m3].
  cbn [snd] in H3.
  pose proof (Hg m3 H3) as H4.
  destruct (gather m3) as [[[r0 r1] r2] m4]. cbn [snd] in H4.
  destruct (success temp_result), temp_key; exact H4.
Qed.

(** C10, as the code has it: "a connected session has error count 0" is
    kept by [connect] called on a disconnected session (the only way
    [send_command] and [health_check] call it), by [disconnect], by
    [send_command], by every setter and query, and by [health_check]
    whenever the gathered queries keep it. *)
Theorem clean_while_connected_is_kept (m : St) :
  clean_while_connected (ctl m) ->
  (connected (ctl m) = false ->
   clean_while_connected (ctl (snd (connect m))))
  /\ clean_while_connected (ctl (disconnect m))
  /\ (forall command data expect_response,
        clean_while_connected
          (ctl (snd (send_command command data expect_response m))))
  /\ clean_while_connected (ctl (snd (power_on m)))
  /\ clean_while_connected (ctl (snd (power_off m)))
  /\ clean_while_connected (ctl (snd (get_power_status m)))
  /\ (forall volume, clean_while_connected (ctl (snd (set_volume volume m))))
  /\ (forall muted, clean_while_connected (ctl (snd (set_mute muted m))))
  /\ (forall source,
        clean_while_connected (ctl (snd (set_input_source source m))))
  /\ (forall mode,
        clean_while_connected (ctl (snd (set_picture_mode mode m))))
  /\ (forall brightness,
        clean_while_connected (ctl (snd (set_brightness brightness m))))
  /\ (forall contrast,
        clean_while_connected (ctl (snd (set_contrast contrast m))))
  /\ clean_while_connected (ctl (snd (get_temperature m)))
  /\ clean_while_connected (ctl (snd (get_serial_number m)))
  /\ clean_while_connected (ctl (snd (get_model_number m)))
  /\ clean_while_connected (ctl (snd (get_software_version m)))
  /\ (forall enabled h_monitors v_monitors h_position v_position,
        clean_while_connected
          (ctl (snd (set_video_wall_mode enabled h_monitors v_monitors
                       h_position v_position m))))
  /\ (forall gather : St -> (gathered * gathered * gathered) * St,
        (forall m0, clean_while_connected (ctl m0) ->
                    clean_while_connected (ctl (snd (gather m0)))) ->
        clean_while_connected (ctl (snd (health_check gather m)))).
Proof.
  intros Hm.
  repeat match goal with |- _ /\ _ => split end; intros.
  - apply connect_clean; assumption.
  - apply disconnect_clean.
  - apply send_command_clean; assumption.
  - apply send_and_record_clean; [reflexivity | assumption].
  - apply send_and_record_clean; [reflexivity | assumption].
  - apply get_power_status_clean; assumption.
  - unfold set_volume. destruct (negb _); [exact Hm|].
    apply send_and_record_clean; [reflexivity | assumption].
  - apply send_and_record_clean; [reflexivity | assumption].
  - apply send_and_record_clean; [reflexivity | assumption].
  - apply send_and_record_clean; [reflexivity | assumption].
  - unfold set_brightness. destruct (negb _); [exact Hm|].
    apply send_and_record_clean; [reflexivity | assumption].
  - unfold set_contrast. destruct (negb _); [exact Hm|].
    apply send_and_record_clean; [reflexivity | assumption].
  - apply get_temperature_clean; assumption.
  - apply text_query_clean; [reflexivity | assumption].
  - apply text_query_clean; [reflexivity | assumption].
  - apply text_query_clean; [reflexivity | assumption].
  - apply set_video_wall_mode_clean; assumption.
  - apply health_check_clean; assumption.
Qed.
(** C7 on the code: when the session is disconnected and the connection
    attempt fails, [health_check] stops after that attempt with
    ['overall_health'] critical, but the dictionary it returns has no
    ['issues'] key: the list holding "Connection failed" is dropped by the
    early return. *)
Theorem health_check_connect_failure
    (gather : St -> (gathered * gathered * gathered) * St) (m : St) :
  connected (ctl m) = false ->
  fst (open_connection (world m)) <> ConnectOk ->
  Health.overall_health (fst (health_check gather m)) = "critical"%string
  /\ Health.issues (fst (health_check gather m)) = None
  /\ (exists n seen,
        Health.connection (fst (health_check gather m))
        = Health.Connection "failed" n seen)
  /\ events (snd (health_check gather m))
     = (events m ++ [EvConnect (fst (open_connection (world m)))])%list.
Proof.
  intros Hc Ho. unfold health_check. rewrite Hc. cbn [negb].
  destruct (open_connection (world m)) as [o w] eqn:E. cbn [fst] in Ho.
  destruct (connect_failure m o w E Ho) as (F1 & _ & F3 & _ & _).
  destruct (connect m) as [up m1]. cbn [fst snd] in F1, F3. subst up.
  cbn [negb fst snd Health.overall_health Health.issues Health.connection].
  repeat split; eauto.
Qed.

(** Where the temperature of a report comes from: once the session is
    connected, the report holds the first payload byte of the response to
    the CURRENT_TEMP query, sent after the power query, with its label;
    it is "unavailable" when that query fails or answers without a
    payload. *)
Lemma temperature_report_of_query
    (gather : St -> (gathered * gathered * gathered) * St) (m m1 : St) :
  (if negb (connected (ctl m)) then connect m else (true, m)) = (true, m1) ->
  Health.temperature (fst (health_check gather m))
  = match fst (send_command CURRENT_TEMP [] true
                 (snd (get_power_status m1))) with
    | Parsed _ (b :: _) _ _ =>
        Health.TemperatureReading (byte_val b)
          (temperature_status (byte_val b))
    | _ => Health.TemperatureUnavailable
    end.
Proof.
  intros E. unfold health_check. rewrite E. cbn [negb].
  destruct (get_power_status m1) as [[power_result power_on] m2].
  cbn [snd]. unfold get_temperature.
  destruct (send_command CURRENT_TEMP [] true m2) as [result m3].
  cbn [fst].
  destruct result as [c [|b d] i r | msg | err];
    destruct (gather _) as [[[r0 r1] r2] m4]; reflexivity.
Qed.

(** C8: in [health_check], the temperature the display returns (the first
    payload byte of its response to the temperature query) is reported
    with the label [temperature_status] gives it, which is "normal" below
    60, "warning" from 60 to 69 and "critical" from 70 up; so 59, 60, 69
    and 70 are labelled normal, warning, warning and critical. No report
    carries a temperature under another label. *)
Theorem temperature_classification
    (gather : St -> (gathered * gathered * gathered) * St) (m : St) :
  (forall m1,
     (if negb (connected (ctl m)) then connect m else (true, m))
     = (true, m1) ->
     Health.temperature (fst (health_check gather m))
     = match fst (send_command CURRENT_TEMP [] true
                    (snd (get_power_status m1))) with
       | Parsed _ (b :: _) _ _ =>
           Health.TemperatureReading (byte_val b)
             (temperature_status (byte_val b))
       | _ => Health.TemperatureUnavailable
       end)
  /\ match Health.temperature (fst (health_check gather m)) with
     | Health.TemperatureReading t label => label = temperature_status t
     | _ => True
     end
  /\ (forall t, t < 60 -> temperature_status t = "normal"%string)
  /\ (forall t, 60 <= t <= 69 -> temperature_status t = "warning"%string)
  /\ (forall t, 70 <= t -> temperature_status t = "critical"%string)
  /\ temperature_status 59 = "normal"%string
  /\ temperature_status 60 = "warning"%string
  /\ temperature_status 69 = "warning"%string
  /\ temperature_status 70 = "critical"%string.
Proof.
  split; [intros m1 E; exact (temperature_report_of_query gather m m1 E)|].
  split.
  - unfold health_check.
    destruct (if negb (connected (ctl m)) then connect m else (true, m))
      as [up m1].
    destruct up; cbn [negb]; [|exact I].
    destruct (get_power_status m1) as [[power_result power_on] m2].
    destruct (get_temperature m2) as [[temp_result temp_key] m3].
    destruct (gather m3) as [[[r0 r1] r2] m4].
    destruct (success temp_result), temp_key; cbn; auto.
  - unfold temperature_status.
    repeat split; try reflexivity; intros t Ht.
    + replace (t <? 60) with true by (symmetry; apply Z.ltb_lt; lia).
      reflexivity.
    + replace (t <? 60) with false by (symmetry; apply Z.ltb_ge; lia).
      replace (t <? 70) with true by (symmetry; apply Z.ltb_lt; lia).
      reflexivity.
    + replace (t <? 60) with false by (symmetry; apply Z.ltb_ge; lia).
      replace (t <? 70) with false by (symmetry; apply Z.ltb_ge; lia).
      reflexivity.
Qed.
End OperationFacts.

Lemma health_check_connect_failure_witness :
  Health.overall_health
    (fst (health_check gather_in_turn (boot (new_controller 1) unreachable)))
  = "critical"%string
  /\ Health.issues
       (fst (health_check gather_in_turn
               (boot (new_controller 1) unreachable)))
     = None.
Proof.
  destruct (health_check_connect_failure gather_in_turn
              (boot (new_controller 1) unreachable))
    as (H1 & H2 & _).
  - reflexivity.
  - cbn. discriminate.
  - split; [exact H1 | exact H2].
Defined.

Lemma temperature_classification_witness :
  Health.temperature
    (fst (health_check gather_in_turn
            (boot (new_controller 1) warm_display)))
  = Health.TemperatureReading 60 "warning".
Proof.
  pose proof (proj1 (temperature_classification gather_in_turn
                       (boot (new_controller 1) warm_display))
                (snd (connect (boot (new_controller 1) warm_display)))
                eq_refl) as H.
  vm_compute in H. vm_compute. exact H.
Defined.

(** A health check that reads 60 degrees reports it as a warning, and the
    report is healthy: a warning-level temperature raises no issue. *)
Example health_check_reads_sixty :
  let report :=
    fst (health_check gather_in_turn (boot (new_controller 1) warm_display))
  in
  Health.temperature report = Health.TemperatureReading 60 "warning"
  /\ Health.issues report = Some []
  /\ Health.overall_health report = "healthy"%string.
Proof. vm_compute. repeat split; reflexivity. Qed.

(** C10, as stated, fails for [connect]: called on a session that is
    already connected, an attempt that raises an error adds one to the
    error count and leaves the session marked connected. *)
Lemma failed_reconnect_breaks_invariant :
  let m1 := snd (connect (boot (new_controller 1) refuses_second_connect)) in
  let m2 := snd (connect m1) in
  clean_while_connected (ctl m1)
  /\ connected (ctl m2) = true
  /\ error_count (status (ctl m2)) = 1
  /\ ~ clean_while_connected (ctl m2).
Proof.
  cbv zeta. split; [|split; [|split]].
  - intros _. reflexivity.
  - reflexivity.
  - reflexivity.
  - intros H. specialize (H eq_refl). vm_compute in H. discriminate H.
Qed.

Lemma clean_while_connected_is_kept_witness :
  clean_while_connected (ctl (boot (new_controller 1) answers_once))
  /\ clean_while_connected
       (ctl (snd (get_power_status
                    (boot (new_controller 1) answers_once)))).
Proof.
  assert (H0 : clean_while_connected
                 (ctl (boot (new_controller 1) answers_once)))
    by (intros _; reflexivity).
  split; [exact H0|].
  apply (clean_while_connected_is_kept
           (boot (new_controller 1) answers_once) H0).
Defined.

(** * Further properties of the codec *)

Lemma pack_B_inv (v : Z) (b : byte) :
  pack_B v = Some b -> 0 <= v <= 255 /\ byte_val b = v.
Proof.
  unfold pack_B. intros E.
  destruct ((0 <=? v) && (v <=? 255)) eqn:R; [|discriminate].
  apply andb_true_iff in R. destruct R as [R1 R2].
  apply Z.leb_le in R1. apply Z.leb_le in R2.
  split; [lia|]. unfold byte_val. rewrite (Byte.to_of_N _ E). lia.
Qed.

Lemma sum_bytes_app (a b : bytes) :
  sum_bytes (a ++ b) = sum_bytes a + sum_bytes b.
Proof.
  unfold sum_bytes. induction a as [|x a IH]; cbn [app fold_right].
  - lia.
  - rewrite IH. lia.
Qed.

Lemma mdc_checksum_mod (header cmd id n : Z) (data : bytes) :
  mdc_checksum header cmd id n data
  = (header + cmd + id + n + sum_bytes data) mod 256.
Proof.
  unfold mdc_checksum. change 0xFF with (Z.ones 8).
  rewrite Z.land_ones by lia. reflexivity.
Qed.

Lemma create_packet_ranges (self : Controller) (cmd : Z)
    (data packet : bytes) :
  _create_mdc_packet self cmd data = Some packet ->
  0 <= cmd <= 255 /\ 0 <= display_id self <= 255
  /\ (List.length data <= 255)%nat.
Proof.
  intros E. unfold _create_mdc_packet in E. cbv zeta in E.
  destruct (pack_B 170) as [h|]; [|discriminate].
  destruct (pack_B cmd) as [c|] eqn:Ec; [|discriminate].
  destruct (pack_B (display_id self)) as [d|] eqn:Ed; [|discriminate].
  destruct (pack_B (Z.of_nat (List.length data))) as [l|] eqn:El;
    [|discriminate].
  apply pack_B_inv in Ec, Ed, El. lia.
Qed.

(** [_create_mdc_packet] raises exactly when a field does not fit a byte:
    it returns a packet if and only if the command code and the display
    id are within 0..255 and the payload has at most 255 bytes. *)
Theorem packet_exists_iff (self : Controller) (cmd : Z) (data : bytes) :
  (exists packet, _create_mdc_packet self cmd data = Some packet)
  <-> (0 <= cmd <= 255 /\ 0 <= display_id self <= 255
       /\ (List.length data <= 255)%nat).
Proof.
  split.
  - intros [packet E]. exact (create_packet_ranges self cmd data packet E).
  - intros (Hc & Hd & Hl).
    destruct (create_packet_ok self cmd data Hc Hd Hl)
      as (h & c & d & l & k & E & _).
    eexists. exact E.
Qed.

(** The layout of a packet: five bytes more than the payload, the payload
    at offset 4, and a last byte equal to the sum of all the bytes before
    it modulo 256. *)
Theorem packet_layout (self : Controller) (cmd : Z) (data packet : bytes) :
  _create_mdc_packet self cmd data = Some packet ->
  List.length packet = (List.length data + 5)%nat
  /\ firstn (List.length data) (skipn 4 packet) = data
  /\ exists body k,
       packet = (body ++ [k])%list
       /\ byte_val k = sum_bytes body mod 256.
Proof.
  intros E.
  destruct (create_packet_ranges self cmd data packet E) as (Hc & Hd & Hl).
  destruct (create_packet_ok self cmd data Hc Hd Hl)
    as (h & c & d & l & k & E' & Vh & Vc & Vd & Vl & Vk).
  rewrite E in E'. inversion E'; subst packet. clear E'.
  split; [|split].
  - cbn [app List.length]. rewrite length_app. cbn [List.length]. lia.
  - cbn [app skipn]. rewrite firstn_app, firstn_all, Nat.sub_diag.
    cbn [firstn]. apply app_nil_r.
  - exists ([h; c; d; l] ++ data)%list, k. split.
    + rewrite <- app_assoc. reflexivity.
    + rewrite Vk, mdc_checksum_mod, sum_bytes_app.
      cbn [sum_bytes fold_right]. rewrite Vh, Vc, Vd, Vl.
      f_equal. unfold sum_bytes. lia.
Qed.

Lemma packet_layout_witness :
  List.length [xaa; x12; x07; x01; x28; xec] = (List.length [x28] + 5)%nat
  /\ firstn (List.length [x28]) (skipn 4 [xaa; x12; x07; x01; x28; xec])
     = [x28]
  /\ exists body k,
       [xaa; x12; x07; x01; x28; xec] = (body ++ [k])%list
       /\ byte_val k = sum_bytes body mod 256.
Proof.
  apply (packet_layout (new_controller 7) (MDC.value VOLUME) [x28]).
  vm_compute. reflexivity.
Defined.

Lemma parse_success_shape (self : Controller) (response : bytes) :
  success (snd (_parse_mdc_response self response)) = true ->
  exists h c d l rest,
    response = h :: c :: d :: l :: rest
    /\ byte_val h = 0xAA /\ byte_val d = display_id self.
Proof.
  intros S.
  destruct response as [|h [|c [|d [|l rest]]]];
    try (rewrite parse_too_short in S by (cbn; lia); discriminate S).
  destruct (Z.eq_dec (byte_val h) 0xAA) as [Hh|Hh].
  - destruct (Z.eq_dec (byte_val d) (display_id self)) as [Hd|Hd].
    + exists h, c, d, l, rest. auto.
    + rewrite parse_id_mismatch in S by assumption. discriminate S.
  - rewrite parse_invalid_header in S by assumption. discriminate S.
Qed.

(** The parser accepts a response if and only if it has at least four
    bytes, starts with 0xAA and carries the controller's display id at
    offset 2; the declared length and the checksum play no part. *)
Theorem parse_succeeds_iff (self : Controller) (response : bytes) :
  success (snd (_parse_mdc_response self response)) = true
  <-> exists h c d l rest,
        response = h :: c :: d :: l :: rest
        /\ byte_val h = 0xAA /\ byte_val d = display_id self.
Proof.
  split.
  - apply parse_success_shape.
  - intros (h & c & d & l & rest & -> & Hh & Hd).
    rewrite (parse_accepted self h c d l rest Hh Hd). reflexivity.
Qed.

Lemma declared_payload (n : Z) (rest : bytes) :
  0 <= n ->
  (if 0 <? n then firstn (Z.to_nat n) rest else [])
  = firstn (Z.to_nat n) rest.
Proof.
  intros Hn. destruct (Z.ltb_spec 0 n) as [H|H]; [reflexivity|].
  replace n with 0 by lia. reflexivity.
Qed.

Lemma parsed_raw_id (self : Controller) (response : bytes)
    (command : Z) (data : bytes) (id : Z) (raw : bytes) :
  snd (_parse_mdc_response self response) = Parsed command data id raw ->
  raw = response /\ id = display_id self.
Proof.
  intros E.
  assert (S : success (snd (_parse_mdc_response self response)) = true)
    by (rewrite E; reflexivity).
  apply parse_success_shape in S.
  destruct S as (h & c & d & l & rest & -> & Hh & Hd).
  rewrite (parse_accepted self h c d l rest Hh Hd) in E. cbv zeta in E.
  cbn [snd] in E. inversion E; subst. auto.
Qed.

(** What a parsed response holds: the response itself, the controller's
    display id, the byte at offset 1 as command code, and as payload the
    bytes from offset 4 up to the declared length, cut short where the
    response ends; the payload never has more than 255 bytes. *)
Theorem parsed_fields (self : Controller) (response : bytes)
    (command : Z) (data : bytes) (id : Z) (raw : bytes) :
  snd (_parse_mdc_response self response) = Parsed command data id raw ->
  raw = response
  /\ id = display_id self
  /\ (List.length data <= 255)%nat
  /\ exists h c d l rest,
       response = h :: c :: d :: l :: rest
       /\ command = byte_val c
       /\ data = firstn (Z.to_nat (byte_val l)) rest.
Proof.
  intros E.
  assert (S : success (snd (_parse_mdc_response self response)) = true)
    by (rewrite E; reflexivity).
  apply parse_success_shape in S.
  destruct S as (h & c & d & l & rest & -> & Hh & Hd).
  rewrite (parse_accepted self h c d l rest Hh Hd) in E. cbv zeta in E.
  cbn [snd] in E. pose proof (byte_val_range l) as Rl.
  rewrite declared_payload in E by lia.
  inversion E; subst. repeat split.
  - rewrite length_firstn. lia.
  - exists h, c, d, l, rest. auto.
Qed.

Lemma parsed_fields_witness :
  [xaa; x2b; x01; x03; x2d] = [xaa; x2b; x01; x03; x2d]
  /\ 1 = display_id (new_controller 1)
  /\ (List.length [x2d] <= 255)%nat
  /\ exists h c d l rest,
       [xaa; x2b; x01; x03; x2d] = h :: c :: d :: l :: rest
       /\ 0x2B = byte_val c
       /\ [x2d] = firstn (Z.to_nat (byte_val l)) rest.
Proof.
  apply (parsed_fields (new_controller 1) [xaa; x2b; x01; x03; x2d]
           0x2B [x2d] 1 [xaa; x2b; x01; x03; x2d]).
  vm_compute. reflexivity.
Defined.

(** The checksum warning: on an accepted response the parser logs
    nothing if and only if no byte follows the declared payload or the
    byte that follows is the checksum of what precedes it. *)
Theorem warning_iff_checksum_differs (self : Controller) (h c d l : byte)
    (rest : bytes) :
  byte_val h = 0xAA ->
  byte_val d = display_id self ->
  fst (_parse_mdc_response self (h :: c :: d :: l :: rest)) = []
  <-> (forall k,
         nth_error rest (Z.to_nat (byte_val l)) = Some k ->
         byte_val k
         = mdc_checksum 0xAA (byte_val c) (display_id self) (byte_val l)
             (firstn (Z.to_nat (byte_val l)) rest)).
Proof.
  intros Hh Hd. rewrite (parse_accepted self h c d l rest Hh Hd).
  cbv zeta. cbn [fst]. pose proof (byte_val_range l) as Rl.
  rewrite declared_payload by lia.
  destruct (Z.ltb_spec (4 + byte_val l)
              (Z.of_nat (List.length (h :: c :: d :: l :: rest))))
    as [Hlen|Hlen].
  - destruct (nth_error rest (Z.to_nat (byte_val l))) as [k|] eqn:Ek.
    + destruct (Z.eqb_spec (byte_val k)
                  (mdc_checksum 170 (byte_val c) (display_id self)
                     (byte_val l) (firstn (Z.to_nat (byte_val l)) rest)))
        as [Hk|Hk]; cbn [negb].
      * split; [|reflexivity]. intros _ k' E'. inversion E'; subst. exact Hk.
      * split; [discriminate|]. intros H. elim Hk. apply H. reflexivity.
    + split; [|reflexivity]. intros _ k' E'. discriminate E'.
  - split; [|reflexivity]. intros _ k E'.
    assert (nth_error rest (Z.to_nat (byte_val l)) <> None)
      by (rewrite E'; discriminate).
    apply nth_error_Some in H. cbn [List.length] in Hlen. lia.
Qed.

Lemma warning_iff_checksum_differs_witness :
  fst (_parse_mdc_response (new_controller 1)
         [xaa; x11; x01; x01; x01; xbe]) = []
  <-> (forall k,
         nth_error [x01; xbe] (Z.to_nat (byte_val x01)) = Some k ->
         byte_val k
         = mdc_checksum 0xAA (byte_val x11) (display_id (new_controller 1))
             (byte_val x01)
             (firstn (Z.to_nat (byte_val x01)) [x01; xbe])).
Proof.
  apply (warning_iff_checksum_differs (new_controller 1)
           xaa x11 x01 x01 [x01; xbe]); reflexivity.
Defined.

(** * Further properties of the session and of command execution *)

Section ExecutionFacts.
Context {W : Type} {T : Transport W}.

Abbreviation St := (Machine W).

Lemma same_settings_refl (c : Controller) : same_settings c c.
Proof. unfold same_settings. repeat split. Qed.

Lemma same_settings_trans (a b c : Controller) :
  same_settings a b -> same_settings b c -> same_settings a c.
Proof.
  unfold same_settings. intros H1 H2.
  repeat match goal with H : _ /\ _ |- _ => destruct H end.
  repeat split; congruence.
Qed.

Lemma connect_settings (m : St) :
  same_settings (ctl m) (ctl (snd (connect m))).
Proof.
  unfold connect.
  destruct (open_connection (world m)) as [[| |] w]; cbn;
    unfold same_settings; cbn; repeat split.
Qed.

Lemma send_attempt_settings (command : MDCCommand) (data : bytes)
    (expect_response : bool) (attempt : Z) (m : St) :
  same_settings (ctl m)
    (ctl (snd (send_attempt command data expect_response attempt m))).
Proof.
  unfold send_attempt.
  assert (Hup : forall up m1,
    (if connected (ctl m) then (true, m) else connect m) = (up, m1) ->
    same_settings (ctl m) (ctl m1)).
  { intros up m1 E. destruct (connected (ctl m)).
    - inversion E; subst. apply same_settings_refl.
    - pose proof (connect_settings m) as Hk. rewrite E in Hk. exact Hk. }
  destruct (if connected (ctl m) then (true, m) else connect m)
    as [up m1] eqn:E1.
  specialize (Hup up m1 eq_refl).
  apply (same_settings_trans _ (ctl m1)); [exact Hup|].
  repeat break_match; cbn [snd];
    rewrite ?on_exception_ctl, ?log_warnings_ctl; cbn;
    rewrite ?log_warnings_ctl; unfold same_settings; cbn; repeat split.
Qed.

Lemma send_command_settings (command : MDCCommand) (data : bytes)
    (expect_response : bool) (m : St) :
  same_settings (ctl m)
    (ctl (snd (send_command command data expect_response m))).
Proof.
  unfold send_command.
  pose proof (send_loop_rule
                (fun m' => same_settings (ctl m) (ctl m'))
                (fun _ m' => same_settings (ctl m) (ctl m'))
                command data expect_response) as R.
  assert (Hstep : forall attempt m0, same_settings (ctl m) (ctl m0) ->
    match send_attempt command data expect_response attempt m0 with
    | (None, m') => same_settings (ctl m) (ctl m')
    | (Some _, m') => same_settings (ctl m) (ctl m')
    end).
  { intros attempt m0 H0.
    pose proof (send_attempt_settings command data expect_response
                  attempt m0) as Hk.
    destruct (send_attempt command data expect_response attempt m0)
      as [[r|] m']; cbn [snd] in Hk;
      exact (same_settings_trans _ _ _ H0 Hk). }
  specialize (R Hstep (range (max_retries (ctl m))) m
                (same_settings_refl _)).
  destruct (send_loop command data expect_response
              (range (max_retries (ctl m))) m) as [[r|] m'];
    cbn [snd]; [exact R|].
  unfold same_settings in *. cbn. exact R.
Qed.

Lemma disconnect_settings (m : St) :
  same_settings (ctl m) (ctl (disconnect m)).
Proof.
  unfold disconnect. destruct (streams (ctl m));
    [destruct (close_wait (world m))|];
    unfold same_settings; cbn; repeat split.
Qed.

(** The session layer never touches what the setters and queries record:
    [connect], [disconnect] and [send_command] change neither the display
    id, nor the retry budget, nor any recorded setting or device
    information. *)
Theorem session_keeps_settings (command : MDCCommand) (data : bytes)
    (expect_response : bool) (m : St) :
  same_settings (ctl m)
    (ctl (snd (send_command command data expect_response m)))
  /\ same_settings (ctl m) (ctl (snd (connect m)))
  /\ same_settings (ctl m) (ctl (disconnect m)).
Proof.
  split; [apply send_command_settings|].
  split; [apply connect_settings | apply disconnect_settings].
Qed.
Lemma count_app (kind : event -> bool) (a b : list event) :
  count kind (a ++ b) = (count kind a + count kind b)%nat.
Proof. unfold count. rewrite filter_app, length_app. reflexivity. Qed.

Lemma count_warnings (kind : event -> bool) (texts : list string) :
  (forall t, kind (EvWarning t) = false) ->
  count kind (map EvWarning texts) = 0%nat.
Proof.
  intros Hk. unfold count.
  induction texts as [|t texts IH]; cbn [map filter]; [reflexivity|].
  rewrite Hk. exact IH.
Qed.

Lemma log_warnings_events (texts : list string) (m : St) :
  events (log_warnings texts m) = (events m ++ map EvWarning texts)%list.
Proof.
  unfold log_warnings. revert m.
  induction texts as [|t texts IH]; intros m; cbn [fold_left map].
  - symmetry. apply app_nil_r.
  - rewrite IH. cbn [emit events]. rewrite <- app_assoc. reflexivity.
Qed.

Lemma log_warnings_count (kind : event -> bool) (texts : list string)
    (m : St) :
  (forall t, kind (EvWarning t) = false) ->
  count kind (events (log_warnings texts m)) = count kind (events m).
Proof.
  intros Hk. rewrite log_warnings_events, count_app, count_warnings by
    assumption. lia.
Qed.

Lemma on_exception_events (attempt : Z) (m : St) :
  events (on_exception attempt m)
  = (events m
     ++ (if attempt <? max_retries (ctl m) - 1 then [EvSleep 1] else []))%list.
Proof.
  unfold on_exception. cbn.
  destruct (attempt <? max_retries (ctl m) - 1); cbn.
  - reflexivity.
  - symmetry. apply app_nil_r.
Qed.

Lemma ensure_connected_cost (m : St) (up : bool) (m1 : St) :
  (if connected (ctl m) then (true, m) else connect m) = (up, m1) ->
  max_retries (ctl m1) = max_retries (ctl m)
  /\ (count is_connect (events m1) <= count is_connect (events m) + 1)%nat
  /\ count is_write (events m1) = count is_write (events m)
  /\ count is_read (events m1) = count is_read (events m)
  /\ count is_sleep (events m1) = count is_sleep (events m).
Proof.
  intros E. destruct (connected (ctl m)).
  - inversion E; subst. repeat split; lia.
  - unfold connect in E.
    destruct (open_connection (world m)) as [[| |] w];
      inversion E; subst; cbn [events emit update set_world ctl max_retries
                                 with_status with_connected with_streams];
      rewrite !count_app; cbn; repeat split; lia.
Qed.

(** What one iteration costs: at most one connection attempt, one write,
    one read and, unless it is the last iteration, one sleep; no read
    when no response is expected. *)
Lemma send_attempt_cost (command : MDCCommand) (data : bytes)
    (expect_response : bool) (attempt : Z) (m : St) :
  let m' := snd (send_attempt command data expect_response attempt m) in
  max_retries (ctl m') = max_retries (ctl m)
  /\ (count is_connect (events m') <= count is_connect (events m) + 1)%nat
  /\ (count is_write (events m') <= count is_write (events m) + 1)%nat
  /\ (count is_read (events m') <= count is_read (events m) + 1)%nat
  /\ (count is_sleep (events m')
      <= count is_sleep (events m)
         + (if (attempt <? max_retries (ctl m) - 1)%Z then 1 else 0))%nat
  /\ (expect_response = false ->
      count is_read (events m') = count is_read (events m)).
Proof.
  cbv zeta. unfold send_attempt.
  destruct (if connected (ctl m) then (true, m) else connect m)
    as [up m1] eqn:E1.
  destruct (ensure_connected_cost m up m1 E1) as (Hr & Hc & Hw & Hd & Hs).
  rewrite <- Hr, <- Hw, <- Hd, <- Hs.
  destruct (attempt <? max_retries (ctl m1) - 1) eqn:Hlast;
    (destruct up; cbn [negb snd]; [|repeat split; lia]);
    repeat break_match; cbn [snd] in *; inv_pair;
    rewrite ?on_exception_events, ?on_exception_ctl, ?log_warnings_events,
      ?log_warnings_ctl;
    cbn [events emit update set_world ctl world max_retries with_status
         with_connected with_streams];
    rewrite ?log_warnings_events, ?log_warnings_ctl;
    cbn [events emit update set_world ctl world max_retries with_status
         with_connected with_streams];
    rewrite ?Hlast;
    rewrite ?count_app, ?count_warnings by reflexivity;
    cbn [count filter is_connect is_write is_read is_sleep List.length];
    repeat split; intros; try discriminate; try lia.
Qed.
Lemma send_loop_cost (command : MDCCommand) (data : bytes)
    (expect_response : bool) (attempts : list Z) :
  forall m : St,
    let m' := snd (send_loop command data expect_response attempts m) in
    max_retries (ctl m') = max_retries (ctl m)
    /\ (count is_connect (events m')
        <= count is_connect (events m) + List.length attempts)%nat
    /\ (count is_write (events m')
        <= count is_write (events m) + List.length attempts)%nat
    /\ (count is_read (events m')
        <= count is_read (events m) + List.length attempts)%nat
    /\ (count is_sleep (events m')
        <= count is_sleep (events m)
           + List.length
               (filter (fun a => (a <? max_retries (ctl m) - 1)%Z)
                  attempts))%nat
    /\ (expect_response = false ->
        count is_read (events m') = count is_read (events m)).
Proof.
  induction attempts as [|attempt rest IH]; intros m; cbv zeta.
  - cbn. repeat split; lia.
  - cbn [send_loop].
    pose proof (send_attempt_cost command data expect_response attempt m)
      as C. cbv zeta in C.
    destruct (send_attempt command data expect_response attempt m)
      as [[r|] m1]; cbn [snd] in C |- *;
      destruct C as (Cr & Cc & Cw & Cd & Cs & Cn);
      cbn [List.length filter].
    + destruct (attempt <? max_retries (ctl m) - 1); cbn [List.length];
        repeat split; try lia; exact Cn.
    + specialize (IH m1). cbv zeta in IH.
      destruct IH as (Ir & Ic & Iw & Id & Is & In).
      rewrite Cr in Is.
      destruct (attempt <? max_retries (ctl m) - 1); cbn [List.length];
        repeat split; try lia; intros E; rewrite In, Cn by exact E;
        reflexivity.
Qed.

Lemma range_length (n : Z) : List.length (range n) = Z.to_nat n.
Proof. unfold range. rewrite length_map, length_seq. reflexivity. Qed.

Lemma range_sleeps (n : Z) :
  (List.length (filter (fun a => (a <? n - 1)%Z) (range n))
   <= Z.to_nat n - 1)%nat.
Proof.
  unfold range. destruct (Z.to_nat n) as [|k] eqn:E; [cbn; lia|].
  rewrite seq_S, map_app, filter_app, length_app. cbn [map filter plus].
  replace (Z.of_nat k <? n - 1) with false
    by (symmetry; apply Z.ltb_ge; lia).
  cbn [List.length].
  pose proof (filter_length_le (fun a => a <? n - 1)
                (map Z.of_nat (seq 0 k))) as L.
  rewrite length_map, length_seq in L. lia.
Qed.

(** The retry budget bounds the I/O of one [send_command]: at most
    [max_retries] connection attempts, [max_retries] writes and
    [max_retries] reads, and at most [max_retries - 1] sleeps. *)
Theorem send_command_io_bound (command : MDCCommand) (data : bytes)
    (expect_response : bool) (m : St) :
  let m' := snd (send_command command data expect_response m) in
  let n := Z.to_nat (max_retries (ctl m)) in
  (count is_connect (events m') <= count is_connect (events m) + n)%nat
  /\ (count is_write (events m') <= count is_write (events m) + n)%nat
  /\ (count is_read (events m') <= count is_read (events m) + n)%nat
  /\ (count is_sleep (events m')
      <= count is_sleep (events m) + (n - 1))%nat.
Proof.
  cbv zeta. unfold send_command.
  pose proof (send_loop_cost command data expect_response
                (range (max_retries (ctl m))) m) as C. cbv zeta in C.
  pose proof (range_sleeps (max_retries (ctl m))) as S.
  rewrite range_length in C.
  destruct (send_loop command data expect_response
              (range (max_retries (ctl m))) m) as [[r|] m'];
    cbn [snd events update] in *; repeat split; lia.
Qed.

(** A command sent without waiting for a response never reads from the
    connection. *)
Theorem no_read_without_response (command : MDCCommand) (data : bytes)
    (m : St) :
  count is_read (events (snd (send_command command data false m)))
  = count is_read (events m).
Proof.
  unfold send_command.
  pose proof (send_loop_cost command data false
                (range (max_retries (ctl m))) m) as C. cbv zeta in C.
  destruct C as (_ & _ & _ & _ & _ & C). specialize (C eq_refl).
  destruct (send_loop command data false
              (range (max_retries (ctl m))) m) as [[r|] m'];
    cbn [snd events update] in *; exact C.
Qed.

(** With a retry budget of zero or less [send_command] does no I/O at
    all: it marks the display unresponsive and reports that the command
    failed after that many attempts. *)
Theorem no_attempt_without_budget (command : MDCCommand) (data : bytes)
    (expect_response : bool) (m : St) :
  max_retries (ctl m) <= 0 ->
  send_command command data expect_response m
  = (Failure (exhausted command (max_retries (ctl m))),
     update (with_status (with_responsive false)) m).
Proof.
  intros Hn. unfold send_command, range.
  replace (Z.to_nat (max_retries (ctl m))) with 0%nat by lia.
  reflexivity.
Qed.
Lemma parse_same_display (c1 c2 : Controller) (response : bytes) :
  display_id c1 = display_id c2 ->
  _parse_mdc_response c1 response = _parse_mdc_response c2 response.
Proof.
  intros E. unfold _parse_mdc_response. rewrite E. reflexivity.
Qed.

Lemma ensure_connected_up (m : St) (m1 : St) :
  (if connected (ctl m) then (true, m) else connect m) = (true, m1) ->
  connected (ctl m1) = true /\ display_id (ctl m1) = display_id (ctl m).
Proof.
  intros E. destruct (connected (ctl m)) eqn:Ec.
  - inversion E; subst. auto.
  - unfold connect in E.
    destruct (open_connection (world m)) as [[| |] w];
      inversion E; subst; cbn; auto.
Qed.

(** What a returning iteration hands back when it hands back a parsed
    response. *)
Lemma send_attempt_parsed (command : MDCCommand) (data : bytes)
    (expect_response : bool) (attempt : Z) (m m' : St)
    (c : Z) (d : bytes) (i : Z) (raw : bytes) :
  send_attempt command data expect_response attempt m
  = (Some (Parsed c d i raw), m') ->
  snd (_parse_mdc_response (ctl m) raw) = Parsed c d i raw
  /\ In (EvRead (ReadBytes raw)) (events m')
  /\ connected (ctl m') = true.
Proof.
  unfold send_attempt.
  destruct (if connected (ctl m) then (true, m) else connect m)
    as [up m1] eqn:E1.
  destruct up; cbn [negb]; [|discriminate].
  destruct (ensure_connected_up m m1 E1) as [Hc Hd].
  destruct (_create_mdc_packet (ctl m1) (MDC.value command) data)
    as [packet|]; [|discriminate].
  destruct (negb (streams (ctl m1))); [discriminate|].
  destruct (write_drain packet (world m1)) as [[|] w1]; [|discriminate].
  destruct expect_response; [|discriminate].
  cbn [world emit set_world].
  destruct (read_1024 w1) as [[[|b t]| |] w2]; try discriminate.
  cbn [ctl emit set_world].
  destruct (_parse_mdc_response (ctl m1) (b :: t)) as [warnings result]
    eqn:Ep.
  pose proof (parsed_raw_id (ctl m1) (b :: t)) as F.
  rewrite Ep in F. cbn [snd] in F.
  destruct result as [c' d' i' raw'| |]; try discriminate.
  intros E. inversion E; subst. clear E.
    destruct (F _ _ _ _ eq_refl) as (-> & _).
    rewrite (parse_same_display (ctl m) (ctl m1)) by congruence.
    rewrite Ep. cbn [snd update ctl events with_status connected].
    rewrite log_warnings_ctl, log_warnings_events. cbn [ctl events emit].
    repeat split; [|exact Hc].
    apply in_or_app. left. apply in_or_app. right. left. reflexivity.
Qed.

(** A parsed response returned by [send_command] is the parse of a
    response the call has read, it carries the controller's own display
    id, and the session is connected when it is returned. *)
Theorem returned_response_was_read (command : MDCCommand) (data : bytes)
    (expect_response : bool) (m : St) (c : Z) (d : bytes) (i : Z)
    (raw : bytes) :
  fst (send_command command data expect_response m) = Parsed c d i raw ->
  let m' := snd (send_command command data expect_response m) in
  i = display_id (ctl m)
  /\ snd (_parse_mdc_response (ctl m) raw) = Parsed c d i raw
  /\ In (EvRead (ReadBytes raw)) (events m')
  /\ connected (ctl m') = true.
Proof.
  cbv zeta. unfold send_command.
  pose proof (send_loop_rule
    (fun m' => display_id (ctl m') = display_id (ctl m))
    (fun r m' =>
       match r with
       | Parsed c d i raw =>
           snd (_parse_mdc_response (ctl m) raw) = r
           /\ In (EvRead (ReadBytes raw)) (events m')
           /\ connected (ctl m') = true
       | _ => True
       end)
    command data expect_response) as R.
  assert (Hstep : forall attempt m0,
    display_id (ctl m0) = display_id (ctl m) ->
    match send_attempt command data expect_response attempt m0 with
    | (None, m') => display_id (ctl m') = display_id (ctl m)
    | (Some r, m') =>
        match r with
        | Parsed c d i raw =>
            snd (_parse_mdc_response (ctl m) raw) = r
            /\ In (EvRead (ReadBytes raw)) (events m')
            /\ connected (ctl m') = true
        | _ => True
        end
    end).
  { intros attempt m0 H0.
    pose proof (send_attempt_settings command data expect_response
                  attempt m0) as Hs.
    destruct (send_attempt command data expect_response attempt m0)
      as [[r|] m'] eqn:Ea; cbn [snd] in Hs.
    - destruct r as [c' d' i' raw'| |]; try exact I.
      destruct (send_attempt_parsed _ _ _ _ _ _ _ _ _ _ Ea)
        as (P1 & P2 & P3).
      rewrite (parse_same_display (ctl m) (ctl m0)) by congruence.
      auto.
    - destruct Hs as (Hs & _). congruence. }
  specialize (R Hstep (range (max_retries (ctl m))) m eq_refl).
  destruct (send_loop command data expect_response
              (range (max_retries (ctl m))) m) as [[r|] m'];
    cbn [fst snd]; intros E; [|discriminate E].
  subst r. destruct R as (R1 & R2 & R3).
  pose proof (parsed_raw_id (ctl m) raw c d i raw R1) as (_ & Hi).
  auto.
Qed.
Lemma create_packet_same_display (c1 c2 : Controller) (cmd : Z)
    (data : bytes) :
  display_id c1 = display_id c2 ->
  _create_mdc_packet c1 cmd data = _create_mdc_packet c2 cmd data.
Proof.
  intros E. unfold _create_mdc_packet. rewrite E. reflexivity.
Qed.

(** A frame that cannot be built is never sent: when the display id is
    outside 0..255 or the payload is longer than 255 bytes, every attempt
    of [send_command] ends in the exception handler before anything is
    written, and the call fails. *)
Theorem unencodable_command_never_written (command : MDCCommand)
    (data : bytes) (expect_response : bool) (m : St) :
  display_id (ctl m) < 0 \/ 255 < display_id (ctl m)
  \/ (255 < List.length data)%nat ->
  let m' := snd (send_command command data expect_response m) in
  success (fst (send_command command data expect_response m)) = false
  /\ count is_write (events m') = count is_write (events m)
  /\ count is_read (events m') = count is_read (events m).
Proof.
  intros Hbad. cbv zeta.
  assert (Hnone : _create_mdc_packet (ctl m) (MDC.value command) data
                  = None).
  { destruct (_create_mdc_packet (ctl m) (MDC.value command) data)
      as [packet|] eqn:E; [|reflexivity].
    pose proof (create_packet_ranges _ _ _ _ E) as X. lia. }
  unfold send_command.
  pose proof (send_loop_rule
    (fun m' => display_id (ctl m') = display_id (ctl m)
               /\ count is_write (events m') = count is_write (events m)
               /\ count is_read (events m') = count is_read (events m))
    (fun _ _ => False)
    command data expect_response) as R.
  assert (Hstep : forall attempt m0,
    display_id (ctl m0) = display_id (ctl m)
    /\ count is_write (events m0) = count is_write (events m)
    /\ count is_read (events m0) = count is_read (events m) ->
    match send_attempt command data expect_response attempt m0 with
    | (None, m') =>
        display_id (ctl m') = display_id (ctl m)
        /\ count is_write (events m') = count is_write (events m)
        /\ count is_read (events m') = count is_read (events m)
    | (Some _, _) => False
    end).
  { intros attempt m0 (H1 & H2 & H3). unfold send_attempt.
    destruct (if connected (ctl m0) then (true, m0) else connect m0)
      as [up m1] eqn:E1.
    destruct (ensure_connected_cost m0 up m1 E1) as (_ & _ & Cw & Cd & _).
    assert (Hid : display_id (ctl m1) = display_id (ctl m0)).
    { destruct (connected (ctl m0)).
      - inversion E1; subst. reflexivity.
      - pose proof (connect_settings m0) as Hs. rewrite E1 in Hs.
        destruct Hs as (Hs & _). exact Hs. }
    destruct up; cbn [negb].
    - rewrite (create_packet_same_display (ctl m1) (ctl m))
        by congruence.
      rewrite Hnone, on_exception_ctl, on_exception_events, !count_app.
      cbn [display_id with_status with_connected].
      destruct (attempt <? max_retries (ctl m1) - 1); cbn;
        repeat split; lia.
    - repeat split; congruence. }
  specialize (R Hstep (range (max_retries (ctl m))) m
                (conj eq_refl (conj eq_refl eq_refl))).
  destruct (send_loop command data expect_response
              (range (max_retries (ctl m))) m) as [[r|] m'];
    [destruct R|].
  cbn [fst snd success events update]. destruct R as (_ & R2 & R3).
  auto.
Qed.

(** Disconnecting an already disconnected session does nothing: the
    writer is closed once, by the first [disconnect]. *)
Theorem disconnect_twice (m : St) :
  disconnect (disconnect m) = disconnect m
  /\ connected (ctl (disconnect m)) = false
  /\ streams (ctl (disconnect m)) = false
  /\ (count is_close (events (disconnect m))
      <= count is_close (events m) + 1)%nat.
Proof.
  unfold disconnect. destruct (streams (ctl m)) eqn:Es.
  - destruct (close_wait (world m)) as [o w]. cbn -[count].
    rewrite count_app. cbn. repeat split. lia.
  - cbn -[count]. repeat split. lia.
Qed.
End ExecutionFacts.

(** * Further properties of the setters and queries *)

Section SetterFacts.
Context {W : Type} {T : Transport W}.

Abbreviation St := (Machine W).

(** The range-checked setters reject a value outside 0..100 before any
    I/O: the machine (controller, world and trace) is left as it was. *)
Theorem out_of_range_setting_rejected (value : Z) (m : St) :
  value < 0 \/ 100 < value ->
  set_volume value m = (Failure "Volume must be between 0-100", m)
  /\ set_brightness value m
     = (Failure "Brightness must be between 0-100", m)
  /\ set_contrast value m = (Failure "Contrast must be between 0-100", m).
Proof.
  intros Hv. unfold set_volume, set_brightness, set_contrast.
  replace ((0 <=? value) && (value <=? 100)) with false.
  - repeat split.
  - symmetry. apply andb_false_iff.
    destruct Hv; [left; apply Z.leb_gt | right; apply Z.leb_gt]; lia.
Qed.

Lemma send_and_record_outcome (command : MDCCommand) (data : bytes)
    (record : DisplayStatus -> DisplayStatus) (m : St) :
  let run := send_and_record command data record m in
  let sent := send_command command data true m in
  fst run = fst sent
  /\ ctl (snd run)
     = if success (fst sent)
       then with_status record (ctl (snd sent))
       else ctl (snd sent).
Proof.
  cbv zeta. unfold send_and_record.
  destruct (send_command command data true m) as [result m'].
  destruct (success result) eqn:S; cbn [fst snd]; rewrite ?S; auto.
Qed.

(** A setter records the new value exactly when the command succeeded;
    after a failed command the recorded value is the old one. *)
Theorem setting_recorded_on_success (m : St) :
  (forall v, 0 <= v <= 100 ->
     volume (status (ctl (snd (set_volume v m))))
     = if success (fst (set_volume v m)) then v
       else volume (status (ctl m)))
  /\ (forall v, 0 <= v <= 100 ->
       brightness (status (ctl (snd (set_brightness v m))))
       = if success (fst (set_brightness v m)) then v
         else brightness (status (ctl m)))
  /\ (forall v, 0 <= v <= 100 ->
       contrast (status (ctl (snd (set_contrast v m))))
       = if success (fst (set_contrast v m)) then v
         else contrast (status (ctl m)))
  /\ (forall b,
       muted (status (ctl (snd (set_mute b m))))
       = if success (fst (set_mute b m)) then b
         else muted (status (ctl m)))
  /\ (forall source,
       input_source (status (ctl (snd (set_input_source source m))))
       = if success (fst (set_input_source source m))
         then Input.name source
         else input_source (status (ctl m)))
  /\ (forall mode,
       picture_mode (status (ctl (snd (set_picture_mode mode m))))
       = if success (fst (set_picture_mode mode m))
         then Picture.name mode
         else picture_mode (status (ctl m)))
  /\ power (status (ctl (snd (power_on m))))
     = (if success (fst (power_on m)) then true
        else power (status (ctl m)))
  /\ power (status (ctl (snd (power_off m))))
     = (if success (fst (power_off m)) then false
        else power (status (ctl m))).
Proof.
  assert (Hrange : forall v, 0 <= v <= 100 ->
            negb ((0 <=? v) && (v <=? 100)) = false).
  { intros v Hv. apply negb_false_iff, andb_true_iff.
    split; apply Z.leb_le; lia. }
  repeat match goal with |- _ /\ _ => split end; intros;
    unfold set_volume, set_brightness, set_contrast, set_mute,
      set_input_source, set_picture_mode, power_on, power_off;
    rewrite ?Hrange by assumption;
    match goal with
    | |- context [send_and_record ?c ?d ?r m] =>
        destruct (send_and_record_outcome c d r m) as [E1 E2];
        pose proof (send_command_settings c d true m) as K;
        rewrite E1, E2;
        destruct (success (fst (send_command c d true m)))
    end;
    unfold same_settings in K;
    repeat match goal with H : _ /\ _ |- _ => destruct H end;
    cbn [status with_status ctl volume brightness contrast muted
         input_source picture_mode power with_volume with_brightness
         with_contrast with_muted with_input_source with_picture_mode
         with_power];
    congruence.
Qed.

End SetterFacts.

Lemma setting_recorded_on_success_witness :
  volume (status (ctl (snd (set_volume 40
                              (boot (new_controller 1) unreachable)))))
  = if success (fst (set_volume 40 (boot (new_controller 1) unreachable)))
    then 40
    else volume (status (ctl (boot (new_controller 1) unreachable))).
Proof.
  apply (setting_recorded_on_success (boot (new_controller 1) unreachable)).
  lia.
Defined.

Lemma out_of_range_setting_rejected_witness :
  set_volume 150 (boot (new_controller 1) unreachable)
  = (Failure "Volume must be between 0-100",
     boot (new_controller 1) unreachable).
Proof.
  apply (out_of_range_setting_rejected 150
           (boot (new_controller 1) unreachable)).
  right. lia.
Defined.

(** * Further properties of video wall mode *)

Section VideoWallFacts.
Context {W : Type} {T : Transport W}.

Abbreviation St := (Machine W).

(** With a grid of 1..10 by 1..10 and a position inside it,
    [set_video_wall_mode] gets past its two checks and sends the
    five-byte payload. *)
Lemma set_video_wall_mode_valid (enabled : bool)
    (h_monitors v_monitors h_position v_position : Z) (m : St) :
  1 <= h_monitors <= 10 -> 1 <= v_monitors <= 10 ->
  1 <= h_position <= h_monitors -> 1 <= v_position <= v_monitors ->
  set_video_wall_mode enabled h_monitors v_monitors h_position v_position m
  = let data :=
      map to_byte [if enabled then 1 else 0; h_monitors; v_monitors;
                   h_position; v_position] in
    let (result, m') := send_command VIDEO_WALL_MODE data true m in
    if success result then
      (result,
       update (with_status
                 (with_grid_position
                    (if enabled then Some (h_position, v_position)
                     else None)))
         (update (with_status (with_video_wall_enabled enabled)) m'))
    else (result, m').
Proof.
  intros Hh Hv Hhp Hvp. unfold set_video_wall_mode.
  replace ((1 <=? h_monitors) && (h_monitors <=? 10)) with true
    by (symmetry; apply andb_true_iff; split; apply Z.leb_le; lia).
  replace ((1 <=? v_monitors) && (v_monitors <=? 10)) with true
    by (symmetry; apply andb_true_iff; split; apply Z.leb_le; lia).
  replace ((1 <=? h_position) && (h_position <=? h_monitors)) with true
    by (symmetry; apply andb_true_iff; split; apply Z.leb_le; lia).
  replace ((1 <=? v_position) && (v_position <=? v_monitors)) with true
    by (symmetry; apply andb_true_iff; split; apply Z.leb_le; lia).
  cbn [negb orb]. cbv zeta.
  destruct (send_command VIDEO_WALL_MODE _ true m) as [result m'].
  destruct (success result); [|reflexivity].
  destruct enabled; reflexivity.
Qed.

(** [set_video_wall_mode] rejects, before any I/O and leaving the machine
    as it was, every grid that is not 1..10 by 1..10 and every position
    outside the grid. *)
Theorem invalid_grid_rejected (enabled : bool)
    (h_monitors v_monitors h_position v_position : Z) (m : St) :
  ~ (1 <= h_monitors <= 10 /\ 1 <= v_monitors <= 10
     /\ 1 <= h_position <= h_monitors /\ 1 <= v_position <= v_monitors) ->
  success (fst (set_video_wall_mode enabled h_monitors v_monitors
                  h_position v_position m)) = false
  /\ snd (set_video_wall_mode enabled h_monitors v_monitors
            h_position v_position m) = m.
Proof.
  intros Hbad. unfold set_video_wall_mode.
  destruct (negb ((1 <=? h_monitors) && (h_monitors <=? 10))
            || negb ((1 <=? v_monitors) && (v_monitors <=? 10))) eqn:E1;
    [split; reflexivity|].
  destruct (negb ((1 <=? h_position) && (h_position <=? h_monitors))
            || negb ((1 <=? v_position) && (v_position <=? v_monitors)))
    eqn:E2; [split; reflexivity|].
  exfalso. apply Hbad.
  apply orb_false_iff in E1, E2. destruct E1 as [A B], E2 as [C D].
  apply negb_false_iff, andb_true_iff in A, B, C, D.
  destruct A as [A1 A2], B as [B1 B2], C as [C1 C2], D as [D1 D2].
  apply Z.leb_le in A1, A2, B1, B2, C1, C2, D1, D2. lia.
Qed.

(** The grid invariant: [set_video_wall_mode] keeps "a grid position is
    recorded exactly while video wall mode is recorded as enabled", and
    when it succeeds the status holds the requested mode with the
    requested position, or no position when the mode is off. *)
Theorem grid_position_iff_wall_enabled (enabled : bool)
    (h_monitors v_monitors h_position v_position : Z) (m : St) :
  grid_iff_wall (status (ctl m)) ->
  let run := set_video_wall_mode enabled h_monitors v_monitors
               h_position v_position m in
  grid_iff_wall (status (ctl (snd run)))
  /\ (success (fst run) = true ->
      video_wall_enabled (status (ctl (snd run))) = enabled
      /\ grid_position (status (ctl (snd run)))
         = if enabled then Some (h_position, v_position) else None).
Proof.
  intros Hm. cbv zeta. unfold set_video_wall_mode.
  destruct (_ || _); [split; [exact Hm | discriminate]|].
  destruct (_ || _); [split; [exact Hm | discriminate]|].
  match goal with
  | |- context [send_command ?c ?d true m] =>
      pose proof (send_command_settings c d true m) as K;
      destruct (send_command c d true m) as [result m']
  end.
  cbn [snd] in K. unfold same_settings in K.
  repeat match goal with H : _ /\ _ |- _ => destruct H end.
  destruct (success result) eqn:S; cbn [fst snd].
  - destruct enabled; unfold grid_iff_wall; cbn; rewrite ?S;
      split; try (split; [reflexivity | reflexivity]);
      split; intros; congruence.
  - unfold grid_iff_wall in *. rewrite S. split; [|discriminate].
    congruence.
Qed.
End VideoWallFacts.

Lemma invalid_grid_rejected_witness :
  success (fst (set_video_wall_mode true 2 2 3 1
                  (boot (new_controller 1) warm_display))) = false
  /\ snd (set_video_wall_mode true 2 2 3 1
            (boot (new_controller 1) warm_display))
     = boot (new_controller 1) warm_display.
Proof.
  apply (invalid_grid_rejected true 2 2 3 1
           (boot (new_controller 1) warm_display)).
  lia.
Defined.

Lemma grid_position_iff_wall_enabled_witness :
  grid_iff_wall
    (status (ctl (snd (set_video_wall_mode true 2 2 2 1
                         (boot (new_controller 1) warm_display)))))
  /\ (success (fst (set_video_wall_mode true 2 2 2 1
                      (boot (new_controller 1) warm_display))) = true ->
      video_wall_enabled
        (status (ctl (snd (set_video_wall_mode true 2 2 2 1
                             (boot (new_controller 1) warm_display)))))
      = true
      /\ grid_position
           (status (ctl (snd (set_video_wall_mode true 2 2 2 1
                                (boot (new_controller 1) warm_display)))))
         = Some (2, 1)).
Proof.
  apply (grid_position_iff_wall_enabled true 2 2 2 1
           (boot (new_controller 1) warm_display)).
  unfold grid_iff_wall. cbn. split; [discriminate | congruence].
Defined.

(** * Further properties of the health check *)

Lemma power_issue_is_critical (rest : list string) :
  overall ("Power status check failed"%string :: rest) = "critical"%string.
Proof.
  unfold overall. cbn [List.length existsb].
  replace (Z.of_nat (S (List.length rest)) =? 0) with false
    by (symmetry; apply Z.eqb_neq; lia).
  reflexivity.
Qed.

Lemma high_temperature_is_warning (b : byte) :
  overall [high_temperature (byte_val b)] = "warning"%string.
Proof. destruct b; vm_compute; reflexivity. Qed.

Section HealthFacts.
Context {W : Type} {T : Transport W}.

Abbreviation St := (Machine W).

Lemma get_temperature_key (m : St) (t : Z) :
  snd (fst (get_temperature m)) = Some t ->
  success (fst (fst (get_temperature m))) = true
  /\ exists b, t = byte_val b.
Proof.
  unfold get_temperature.
  destruct (send_command CURRENT_TEMP [] true m) as [result m'].
  destruct result as [c [|b d] i r | msg | err]; cbn [fst snd];
    try discriminate.
  intros E. inversion E; subst. split; [reflexivity | eauto].
Qed.

(** The overall health of a report. When the connection could not be
    made the report is critical. Otherwise it is critical exactly when
    the power query failed; failing that, it is a warning exactly when a
    temperature of 70 or more was read, and healthy in every other case:
    a temperature labelled critical does not make the report critical. *)
Theorem overall_health_of_report
    (gather : St -> (gathered * gathered * gathered) * St) (m : St) :
  let report := fst (health_check gather m) in
  match Health.power report with
  | Health.PowerUnknown =>
      Health.overall_health report = "critical"%string
  | Health.PowerReport _ responsive =>
      Health.overall_health report
      = if negb responsive then "critical"%string
        else
          match Health.temperature report with
          | Health.TemperatureReading t _ =>
              if 70 <=? t then "warning"%string else "healthy"%string
          | _ => "healthy"%string
          end
  end.
Proof.
  cbv zeta. unfold health_check.
  destruct (if negb (connected (ctl m)) then connect m else (true, m))
    as [up m1].
  destruct up; cbn [negb]; [|reflexivity].
  destruct (get_power_status m1) as [[power_result power_on] m2].
  pose proof (get_temperature_key m2) as K.
  destruct (get_temperature m2) as [[temp_result temp_key] m3].
  cbn [fst snd] in K.
  destruct (gather m3) as [[[r0 r1] r2] m4].
  destruct temp_key as [t|].
  - destruct (K t eq_refl) as (Hs & b & ->). rewrite Hs.
    destruct (success power_result);
      cbn [negb fst Health.power Health.overall_health Health.temperature
           app].
    + destruct (70 <=? byte_val b); [|reflexivity].
      apply high_temperature_is_warning.
    + destruct (70 <=? byte_val b); apply power_issue_is_critical.
  - destruct (success temp_result), (success power_result);
      cbn [negb fst Health.power Health.overall_health Health.temperature
           app];
      first [reflexivity | apply power_issue_is_critical].
Qed.
End HealthFacts.

(** * Further properties of the text queries *)

Lemma lstrip_suffix (s : list ascii) :
  exists spaces, s = (spaces ++ lstrip s)%list.
Proof.
  induction s as [|a s IH]; cbn [lstrip].
  - exists []. reflexivity.
  - destruct (is_space a).
    + destruct IH as [spaces E]. exists (a :: spaces). cbn [app]. congruence.
    + exists []. reflexivity.
Qed.

Lemma lstrip_head (s : list ascii) (a : ascii) (t : list ascii) :
  lstrip s = a :: t -> is_space a = false.
Proof.
  induction s as [|x s IH]; cbn [lstrip]; [discriminate|].
  destruct (is_space x) eqn:E; [exact IH|].
  intros H. inversion H; subst. exact E.
Qed.

Lemma lstrip_incl (s : list ascii) (a : ascii) :
  In a (lstrip s) -> In a s.
Proof.
  destruct (lstrip_suffix s) as [spaces E]. intros H.
  rewrite E. apply in_or_app. right. exact H.
Qed.

(** The text a query records ([serial_number], [software_version], the
    model number): it holds only ASCII characters of the response
    payload, and neither starts nor ends with white space. *)
Theorem decoded_text_is_stripped_ascii (data : bytes) :
  let text := list_ascii_of_string (decode_strip data) in
  Forall (fun a => (N_of_ascii a < 128)%N
                   /\ exists b, In b data /\ a = ascii_of_byte b) text
  /\ (forall a t, text = a :: t -> is_space a = false)
  /\ (forall a t, rev text = a :: t -> is_space a = false).
Proof.
  cbv zeta. unfold decode_strip.
  rewrite list_ascii_of_string_of_list_ascii. unfold strip.
  split; [|split].
  - apply Forall_forall. intros a Ha.
    apply in_rev in Ha. apply lstrip_incl in Ha.
    apply in_rev in Ha. apply lstrip_incl in Ha.
    unfold decode_ascii_ignore in Ha. apply in_map_iff in Ha.
    destruct Ha as (b & Eb & Hb). apply filter_In in Hb.
    destruct Hb as [Hin Hlt]. apply Z.ltb_lt in Hlt. unfold byte_val in Hlt.
    split; [|exists b; auto].
    rewrite <- Eb, Ascii.ascii_of_byte_via_N, N_ascii_embedding; lia.
  - intros a t E.
    destruct (lstrip_suffix (rev (lstrip (decode_ascii_ignore data))))
      as [spaces S].
    apply (f_equal (@rev ascii)) in E. rewrite rev_involutive in E.
    rewrite E in S. cbn [rev] in S.
    apply (f_equal (@rev ascii)) in S. rewrite rev_involutive in S.
    rewrite !rev_app_distr in S. cbn [rev app] in S.
    exact (lstrip_head _ _ _ S).
  - intros a t E. rewrite rev_involutive in E.
    exact (lstrip_head _ _ _ E).
Qed.

(** * Properties of the configuration dictionaries *)

Section ConfigFacts.
Context {A : Type}.

Abbreviation dict := (list (string * Config A)).

Lemma dict_get_set_same {V : Type} (key : string) (value : V)
    (d : list (string * V)) :
  dict_get key (dict_set key value d) = Some value.
Proof.
  induction d as [|[k v] d IH]; cbn [dict_set dict_get].
  - rewrite String.eqb_refl. reflexivity.
  - destruct (String.eqb k key) eqn:E; cbn [dict_get]; rewrite E.
    + reflexivity.
    + exact IH.
Qed.

Lemma dict_get_set_other {V : Type} (key other : string) (value : V)
    (d : list (string * V)) :
  key <> other ->
  dict_get other (dict_set key value d) = dict_get other d.
Proof.
  intros Hne.
  induction d as [|[k v] d IH]; cbn [dict_set dict_get].
  - replace (String.eqb key other) with false
      by (symmetry; apply String.eqb_neq; exact Hne).
    reflexivity.
  - destruct (String.eqb k key) eqn:E; cbn [dict_get].
    + apply String.eqb_eq in E. subst k.
      replace (String.eqb key other) with false
        by (symmetry; apply String.eqb_neq; exact Hne).
      reflexivity.
    + rewrite IH. reflexivity.
Qed.

Lemma split_nonempty (sep : ascii) (s : string) : split sep s <> [].
Proof.
  destruct s as [|c s]; cbn [split]; [discriminate|].
  destruct (Ascii.eqb c sep); [discriminate|].
  destruct (split sep s); discriminate.
Qed.

Lemma get_keys_empty (keys : list string) (default : Config A) :
  keys <> [] ->
  VideoWallConfig.get_keys keys (Mapping []) default = default.
Proof. destruct keys; [congruence | reflexivity]. Qed.

Lemma set_keys_step (key next : string) (rest : list string)
    (value : Config A) (target : dict) :
  VideoWallConfig.set_keys (key :: next :: rest) value target
  = match
      match dict_get key target with
      | None => Some []
      | Some (Mapping d) => Some d
      | Some (Scalar _) => None
      end
    with
    | Some d =>
        match VideoWallConfig.set_keys (next :: rest) value d with
        | Some d' => Some (dict_set key (Mapping d') target)
        | None => None
        end
    | None => None
    end.
Proof. reflexivity. Qed.

Lemma set_then_get_keys (keys : list string) (value default : Config A) :
  forall d d' : dict,
    VideoWallConfig.set_keys keys value d = Some d' ->
    VideoWallConfig.get_keys keys (Mapping d') default = value.
Proof.
  induction keys as [|key rest IH]; intros d d' E; [discriminate E|].
  destruct rest as [|next rest].
  - cbn in E. inversion E; subst.
    cbn [VideoWallConfig.get_keys]. rewrite dict_get_set_same. reflexivity.
  - rewrite set_keys_step in E.
    destruct (match dict_get key d with
              | Some (Scalar _) => None
              | Some (Mapping d0) => Some d0
              | None => Some []
              end) as [child|]; [|discriminate E].
    destruct (VideoWallConfig.set_keys (next :: rest) value child)
      as [child'|] eqn:Ec; [|discriminate E].
    inversion E; subst.
    change (VideoWallConfig.get_keys (key :: next :: rest)
              (Mapping (dict_set key (Mapping child') d)) default)
      with (match dict_get key (dict_set key (Mapping child') d) with
            | Some v => VideoWallConfig.get_keys (next :: rest) v default
            | None => default
            end).
    rewrite dict_get_set_same. exact (IH child child' Ec).
Qed.

(** Reading back what was set: after a [set] that did not raise, [get] on
    the same path returns the value that was set, whatever the default. *)
Theorem get_after_set (config config' : dict) (key_path : string)
    (value default : Config A) :
  VideoWallConfig.set config key_path value = Some config' ->
  VideoWallConfig.get config' key_path default = value.
Proof.
  unfold VideoWallConfig.set, VideoWallConfig.get.
  apply set_then_get_keys.
Qed.

Lemma set_keys_keeps_other (common : list string) (k1 k2 : string)
    (r1 r2 : list string) (value default : Config A) :
  k1 <> k2 ->
  forall d d' : dict,
    VideoWallConfig.set_keys (common ++ k1 :: r1) value d = Some d' ->
    VideoWallConfig.get_keys (common ++ k2 :: r2) (Mapping d') default
    = VideoWallConfig.get_keys (common ++ k2 :: r2) (Mapping d) default.
Proof.
  intros Hne.
  induction common as [|c common IH]; intros d d' E; cbn [app] in *.
  - assert (Hd : exists x, d' = dict_set k1 x d).
    { destruct r1 as [|n r1];
        [cbn [VideoWallConfig.set_keys] in E | rewrite set_keys_step in E].
      - inversion E. eauto.
      - destruct (match dict_get k1 d with
                  | Some (Scalar _) => None
                  | Some (Mapping d0) => Some d0
                  | None => Some []
                  end) as [child|]; [|discriminate E].
        destruct (VideoWallConfig.set_keys (n :: r1) value child);
          [|discriminate E].
        inversion E. eauto. }
    destruct Hd as [x ->]. cbn [VideoWallConfig.get_keys].
    rewrite dict_get_set_other by exact Hne. reflexivity.
  - assert (Hrest : exists n t, (common ++ k1 :: r1)%list = n :: t)
      by (destruct common; cbn; eauto).
    destruct Hrest as (n & t & Hrest).
    rewrite Hrest, set_keys_step in E.
    rewrite <- Hrest in E. cbn [VideoWallConfig.get_keys].
    destruct (dict_get c d) as [[a|d0]|] eqn:Eg; [discriminate E| |].
    + destruct (VideoWallConfig.set_keys (common ++ k1 :: r1) value d0)
        as [d0'|] eqn:Ec; [|discriminate E].
      inversion E; subst. rewrite dict_get_set_same.
      exact (IH d0 d0' Ec).
    + destruct (VideoWallConfig.set_keys (common ++ k1 :: r1) value [])
        as [d0'|] eqn:Ec; [|discriminate E].
      inversion E; subst. rewrite dict_get_set_same.
      rewrite (IH [] d0' Ec). apply get_keys_empty.
      destruct common; discriminate.
Qed.
(** [set] leaves every other branch alone: a path that parts from the
    path set at some key reads the same before and after. *)
Theorem set_keeps_other_paths (config config' : dict)
    (key_path other_path : string) (common : list string) (k1 k2 : string)
    (r1 r2 : list string) (value default : Config A) :
  split "." key_path = (common ++ k1 :: r1)%list ->
  split "." other_path = (common ++ k2 :: r2)%list ->
  k1 <> k2 ->
  VideoWallConfig.set config key_path value = Some config' ->
  VideoWallConfig.get config' other_path default
  = VideoWallConfig.get config other_path default.
Proof.
  unfold VideoWallConfig.set, VideoWallConfig.get.
  intros -> -> Hne E.
  exact (set_keys_keeps_other common k1 k2 r1 r2 value default Hne _ _ E).
Qed.

Lemma get_keys_found (keys : list string) (a : A) :
  forall c : Config A,
    VideoWallConfig.get_keys keys c (Mapping []) = Scalar a ->
    forall default, VideoWallConfig.get_keys keys c default = Scalar a.
Proof.
  induction keys as [|key rest IH]; intros c E default;
    cbn [VideoWallConfig.get_keys] in *; [exact E|].
  destruct c as [x|d]; [discriminate E|].
  destruct (dict_get key d) as [v|]; [|discriminate E].
  apply IH. exact E.
Qed.

Lemma set_keys_fails (keys : list string) (value : Config A) :
  forall d : dict,
    VideoWallConfig.set_keys keys value d = None
    <-> keys = []
        \/ exists p q a,
             keys = (p ++ q)%list /\ p <> [] /\ q <> []
             /\ VideoWallConfig.get_keys p (Mapping d) (Mapping [])
                = Scalar a.
Proof.
  induction keys as [|key rest IH]; intros d.
  - split; [auto | reflexivity].
  - destruct rest as [|next rest].
    + split; [discriminate|].
      intros [E | (p & q & a & E & Hp & Hq & _)]; [discriminate E|].
      destruct p as [|x p]; [congruence|].
      destruct p, q; cbn in E; try congruence; discriminate E.
    + rewrite set_keys_step. split.
      * intros E. right.
        destruct (dict_get key d) as [[a|d0]|] eqn:Eg.
        -- exists [key], (next :: rest), a. repeat split; try discriminate.
           cbn [VideoWallConfig.get_keys]. rewrite Eg. reflexivity.
        -- destruct (VideoWallConfig.set_keys (next :: rest) value d0)
             eqn:Ec; [discriminate E|].
           apply IH in Ec.
           destruct Ec as [Ec | (p & q & a & Ek & Hp & Hq & Hg)];
             [discriminate Ec|].
           exists (key :: p), q, a. repeat split; try discriminate.
           ++ cbn [app]. congruence.
           ++ exact Hq.
           ++ cbn [VideoWallConfig.get_keys]. rewrite Eg. exact Hg.
        -- destruct (VideoWallConfig.set_keys (next :: rest) value [])
             eqn:Ec; [discriminate E|].
           apply IH in Ec.
           destruct Ec as [Ec | (p & q & a & Ek & Hp & Hq & Hg)];
             [discriminate Ec|].
           rewrite get_keys_empty in Hg by exact Hp. discriminate Hg.
      * intros [E | (p & q & a & Ek & Hp & Hq & Hg)]; [discriminate E|].
        destruct p as [|x p]; [congruence|].
        cbn [app] in Ek. inversion Ek as [[Ex Erest]]. subst x.
        cbn [VideoWallConfig.get_keys] in Hg.
        destruct (dict_get key d) as [[b|d0]|]; [reflexivity| |].
        -- assert (Hnone :
             VideoWallConfig.set_keys (next :: rest) value d0 = None).
           { apply IH. right. destruct p as [|y p].
             - cbn [VideoWallConfig.get_keys] in Hg. discriminate Hg.
             - exists (y :: p), q, a. repeat split; auto; discriminate. }
           rewrite Hnone. reflexivity.
        -- discriminate Hg.
Qed.

(** When [set] raises: exactly when some key of the path before the last
    one holds a value that is not a dictionary. A key that is missing is
    no obstacle (a dictionary is created for it). *)
Theorem set_raises_iff (config : dict) (key_path : string)
    (value : Config A) :
  VideoWallConfig.set config key_path value = None
  <-> exists p q a,
        split "." key_path = (p ++ q)%list /\ p <> [] /\ q <> []
        /\ VideoWallConfig.get_keys p (Mapping config) (Mapping [])
           = Scalar a.
Proof.
  unfold VideoWallConfig.set. rewrite set_keys_fails.
  split; [|auto].
  intros [E | H]; [|exact H].
  elim (split_nonempty "." key_path E).
Qed.

Lemma merge_keeps_absent (key : string) (source : dict) :
  dict_get key source = None ->
  forall target : dict,
    dict_get key (VideoWallConfig._deep_merge target source)
    = dict_get key target.
Proof.
  induction source as [|[k v] rest IH]; intros E target;
    cbn [VideoWallConfig._deep_merge]; [reflexivity|].
  cbn [dict_get] in E. destruct (String.eqb k key) eqn:Ek; [discriminate E|].
  rewrite (IH E). apply dict_get_set_other.
  apply String.eqb_neq. exact Ek.
Qed.

Lemma dict_get_absent (key : string) (d : dict) :
  ~ In key (map fst d) -> dict_get key d = None.
Proof.
  induction d as [|[k v] d IH]; intros Hn; cbn [dict_get]; [reflexivity|].
  destruct (String.eqb k key) eqn:Ek.
  - apply String.eqb_eq in Ek. elim Hn. left. exact Ek.
  - apply IH. intros H. apply Hn. right. exact H.
Qed.

Lemma dict_get_in (key : string) (d : dict) (v : Config A) :
  dict_get key d = Some v -> In (key, v) d.
Proof.
  induction d as [|[k x] d IH]; cbn [dict_get]; [discriminate|].
  destruct (String.eqb k key) eqn:Ek.
  - apply String.eqb_eq in Ek. intros E. inversion E; subst. left.
    reflexivity.
  - intros E. right. apply IH. exact E.
Qed.

Lemma merge_sets_present (key : string) (v : Config A) (source : dict) :
  NoDup (map fst source) ->
  dict_get key source = Some v ->
  forall target : dict,
    dict_get key (VideoWallConfig._deep_merge target source)
    = Some (VideoWallConfig.merge_value v (dict_get key target)).
Proof.
  induction source as [|[k x] rest IH]; intros Hnd E target;
    [discriminate E|].
  cbn [map fst] in Hnd. inversion Hnd as [|? ? Hnot Hrest]; subst.
  cbn [dict_get] in E. cbn [VideoWallConfig._deep_merge].
  destruct (String.eqb k key) eqn:Ek.
  - apply String.eqb_eq in Ek. subst k. inversion E; subst x.
    rewrite (merge_keeps_absent key rest (dict_get_absent _ _ Hnot)).
    apply dict_get_set_same.
  - rewrite (IH Hrest E). rewrite dict_get_set_other; [reflexivity|].
    apply String.eqb_neq. exact Ek.
Qed.

Lemma merge_value_mapping (source target : dict) :
  VideoWallConfig.merge_value (Mapping source) (Some (Mapping target))
  = Mapping (VideoWallConfig._deep_merge target source).
Proof.
  cbn [VideoWallConfig.merge_value]. f_equal. revert target.
  induction source as [|[k v] rest IH]; intros target;
    cbn [VideoWallConfig._deep_merge]; [reflexivity|].
  apply IH.
Qed.

Lemma merge_keys_scalar (keys : list string) (a : A) :
  forall source : dict,
    WellFormed (Mapping source) ->
    VideoWallConfig.get_keys keys (Mapping source) (Mapping []) = Scalar a ->
    forall (target : dict) (default : Config A),
      VideoWallConfig.get_keys keys
        (Mapping (VideoWallConfig._deep_merge target source)) default
      = Scalar a.
Proof.
  induction keys as [|key rest IH]; intros source Hwf E target default;
    cbn [VideoWallConfig.get_keys] in *; [discriminate E|].
  inversion Hwf as [|? Hnd Hsub]; subst.
  destruct (dict_get key source) as [v|] eqn:Eg; [|discriminate E].
  rewrite (merge_sets_present key v source Hnd Eg).
  destruct rest as [|next rest].
  - cbn [VideoWallConfig.get_keys] in *. subst v. reflexivity.
  - destruct v as [x|s']; [discriminate E|].
    pose proof (Hsub key (Mapping s') (dict_get_in _ _ _ Eg)) as Hwf'.
    destruct (dict_get key target) as [[y|t']|].
    + apply get_keys_found. exact E.
    + rewrite merge_value_mapping. apply IH; assumption.
    + apply get_keys_found. exact E.
Qed.

(** What the file says wins: a path under which the merged-in dictionary
    holds a value that is not a dictionary reads that value after
    [_deep_merge], whatever the target held there. *)
Theorem merged_value_wins (target source : dict) (key_path : string)
    (a : A) (default : Config A) :
  WellFormed (Mapping source) ->
  VideoWallConfig.get source key_path (Mapping []) = Scalar a ->
  VideoWallConfig.get (VideoWallConfig._deep_merge target source)
    key_path default
  = Scalar a.
Proof.
  unfold VideoWallConfig.get. intros Hwf E.
  apply merge_keys_scalar; assumption.
Qed.

(** What the file does not mention keeps its default: a path whose first
    key is absent from the merged-in dictionary reads the same before and
    after [_deep_merge]. *)
Theorem unmentioned_key_keeps_default (target source : dict)
    (key_path : string) (key : string) (rest : list string)
    (default : Config A) :
  split "." key_path = key :: rest ->
  dict_get key source = None ->
  VideoWallConfig.get (VideoWallConfig._deep_merge target source)
    key_path default
  = VideoWallConfig.get target key_path default.
Proof.
  unfold VideoWallConfig.get. intros -> E.
  cbn [VideoWallConfig.get_keys].
  rewrite (merge_keeps_absent key source E). reflexivity.
Qed.
End ConfigFacts.

(** * Properties of the video wall grids *)

Lemma in_range_from (a b x : Z) : In x (range_from a b) <-> a <= x < b.
Proof.
  unfold range_from. rewrite in_map_iff. split.
  - intros (k & <- & Hk). apply in_seq in Hk. lia.
  - intros Hx. exists (Z.to_nat (x - a)). split; [lia|].
    apply in_seq. lia.
Qed.

(** The grids offered for a number of displays are exactly the ways of
    writing that number as width times height with both between 1 and
    10; in particular none is offered for more than 100 displays. *)
Theorem layout_grids_iff (display_count h v : Z) :
  In (h, v) (layout_grids display_count)
  <-> 1 <= h <= 10 /\ 1 <= v <= 10 /\ h * v = display_count.
Proof.
  unfold layout_grids. rewrite in_flat_map. split.
  - intros (x & Hx & Hin). apply in_range_from in Hx.
    destruct (Z.eqb_spec (display_count mod x) 0) as [Hm|Hm];
      [|destruct Hin].
    cbv zeta in Hin.
    destruct (Z.leb_spec (display_count / x) 10) as [Hv|Hv];
      [|destruct Hin].
    destruct Hin as [E|[]]. inversion E; subst h v. clear E.
    pose proof (Z.div_mod display_count x ltac:(lia)) as D.
    rewrite Hm in D.
    assert (1 <= display_count / x) by nia.
    repeat split; lia.
  - intros (Hh & Hv & E). exists h. split.
    + apply in_range_from. nia.
    + subst display_count. rewrite Z.mul_comm, Z.mod_mul by lia.
      cbn [Z.eqb]. cbv zeta. rewrite Z.div_mul by lia.
      replace (v <=? 10) with true by (symmetry; apply Z.leb_le; lia).
      left. reflexivity.
Qed.

Lemma position_bounds (h v i : Z) :
  1 <= h -> 0 <= i < h * v ->
  1 <= h_pos i h <= h /\ 1 <= v_pos i h <= v.
Proof.
  intros Hh Hi. unfold h_pos, v_pos.
  pose proof (Z.mod_pos_bound i h ltac:(lia)) as M.
  assert (0 <= i / h) by (apply Z.div_pos; lia).
  assert (i / h < v) by (apply Z.div_lt_upper_bound; lia).
  lia.
Qed.

(** The position computed for index [i] of a grid [h] wide and [v] high
    lies inside the grid, and the index can be computed back from it (so
    two indices never get the same cell). *)
Theorem grid_position_in_grid (h v i : Z) :
  1 <= h -> 0 <= i < h * v ->
  1 <= h_pos i h <= h /\ 1 <= v_pos i h <= v
  /\ i = (v_pos i h - 1) * h + (h_pos i h - 1).
Proof.
  intros Hh Hi.
  destruct (position_bounds h v i Hh Hi) as [A B].
  split; [exact A|]. split; [exact B|].
  unfold h_pos, v_pos. pose proof (Z.div_mod i h ltac:(lia)) as D. lia.
Qed.

Lemma grid_position_in_grid_witness :
  1 <= h_pos 5 3 <= 3 /\ 1 <= v_pos 5 3 <= 2
  /\ 5 = (v_pos 5 3 - 1) * 3 + (h_pos 5 3 - 1).
Proof. apply (grid_position_in_grid 3 2 5); lia. Defined.

Lemma map_fst_combine_same {X Y : Type} (a : list X) (b : list Y) :
  List.length a = List.length b -> map fst (combine a b) = a.
Proof.
  revert b. induction a as [|x a IH]; intros [|y b] E; cbn in *;
    try reflexivity; try discriminate.
  f_equal. apply IH. lia.
Qed.

Lemma enumerate_in {X : Type} (l : list X) (i : Z) (x : X) :
  In (i, x) (enumerate l) -> 0 <= i < Z.of_nat (List.length l).
Proof.
  unfold enumerate. intros H. apply in_combine_l in H.
  apply in_map_iff in H. destruct H as (k & <- & Hk).
  apply in_seq in Hk. lia.
Qed.

Lemma slice_to_length {X : Type} (n : Z) (l : list X) :
  0 <= n -> Z.of_nat (List.length (slice_to n l)) <= n.
Proof.
  intros Hn. unfold slice_to.
  replace (0 <=? n) with true by (symmetry; apply Z.leb_le; lia).
  rewrite length_firstn. lia.
Qed.

Lemma display_mapping_in (h v : Z) (display_ids : list Z)
    (id hp vp : Z) :
  1 <= h -> 1 <= v ->
  In (id, (hp, vp)) (display_mapping h v display_ids) ->
  1 <= hp <= h /\ 1 <= vp <= v.
Proof.
  intros Hh Hv Hin. unfold display_mapping in Hin.
  pose proof (slice_to_length (h * v) display_ids ltac:(nia)) as Hlen.
  apply in_map_iff in Hin. destruct Hin as ([i x] & E & Hin).
  apply enumerate_in in Hin. inversion E; subst.
  apply (position_bounds h v i Hh). lia.
Qed.

(** The display mapping of a layout: every display gets a position
    inside the grid, no two displays get the same position, and at most
    [h * v] displays are placed. *)
Theorem display_mapping_is_a_placement (h v : Z) (display_ids : list Z) :
  1 <= h -> 1 <= v ->
  Forall (fun entry =>
            1 <= fst (snd entry) <= h /\ 1 <= snd (snd entry) <= v)
    (display_mapping h v display_ids)
  /\ NoDup (map snd (display_mapping h v display_ids))
  /\ Z.of_nat (List.length (display_mapping h v display_ids)) <= h * v
  /\ map fst (display_mapping h v display_ids)
     = slice_to (h * v) display_ids.
Proof.
  intros Hh Hv. unfold display_mapping.
  pose proof (slice_to_length (h * v) display_ids ltac:(nia)) as Hlen.
  set (shown := slice_to (h * v) display_ids) in *.
  split; [|split; [|split]].
  - apply Forall_forall. intros [id [hp vp]] Hin. cbn [fst snd].
    exact (display_mapping_in h v display_ids id hp vp Hh Hv Hin).
  - rewrite map_map.
    replace (map (fun x : Z * Z => snd (let '(i, id) := x in
                                         (id, (h_pos i h, v_pos i h))))
               (enumerate shown))
      with (map (fun i => (h_pos i h, v_pos i h))
              (map fst (enumerate shown)))
      by (rewrite map_map; apply map_ext; intros [i id]; reflexivity).
    unfold enumerate. rewrite map_fst_combine_same
      by (rewrite length_map, length_seq; reflexivity).
    apply NoDup_map_NoDup_ForallPairs.
    + intros i j _ _ E. inversion E as [[E1 E2]].
      unfold h_pos, v_pos in E1, E2.
      pose proof (Z.div_mod i h ltac:(lia)).
      pose proof (Z.div_mod j h ltac:(lia)). nia.
    + apply NoDup_map_NoDup_ForallPairs; [|apply seq_NoDup].
      intros a b _ _ E. lia.
  - rewrite length_map. unfold enumerate.
    rewrite length_combine, length_map, length_seq. lia.
  - rewrite map_map.
    replace (map (fun x : Z * Z => fst (let '(i, id) := x in
                                         (id, (h_pos i h, v_pos i h))))
               (enumerate shown))
      with (map snd (enumerate shown))
      by (apply map_ext; intros [i id]; reflexivity).
    unfold enumerate.
    assert (G : forall (a : list Z) (b : list Z),
               List.length a = List.length b -> map snd (combine a b) = b).
    { induction a as [|x a IH]; intros [|y b] E; cbn in *;
        try reflexivity; try discriminate.
      f_equal. apply IH. lia. }
    apply G. rewrite length_map, length_seq. reflexivity.
Qed.

Lemma display_mapping_is_a_placement_witness :
  Forall (fun entry =>
            1 <= fst (snd entry) <= 2 /\ 1 <= snd (snd entry) <= 2)
    (display_mapping 2 2 [11; 12; 13; 14; 15])
  /\ NoDup (map snd (display_mapping 2 2 [11; 12; 13; 14; 15]))
  /\ Z.of_nat (List.length (display_mapping 2 2 [11; 12; 13; 14; 15]))
     <= 2 * 2
  /\ map fst (display_mapping 2 2 [11; 12; 13; 14; 15])
     = slice_to (2 * 2) [11; 12; 13; 14; 15].
Proof. apply (display_mapping_is_a_placement 2 2); lia. Defined.

Section LayoutFacts.
Context {W : Type} {T : Transport W}.

(** Applying a layout: for a grid of 1..10 by 1..10, the position given
    to each placed display passes the checks of [set_video_wall_mode], so
    the call for that display sends the frame with payload
    [1, h, v, h_pos, v_pos] and returns what [send_command] returns. *)
Theorem layout_positions_are_accepted (h v : Z) (display_ids : list Z)
    (id hp vp : Z) (m : Machine W) :
  1 <= h <= 10 -> 1 <= v <= 10 ->
  In (id, (hp, vp)) (display_mapping h v display_ids) ->
  fst (set_video_wall_mode true h v hp vp m)
  = fst (send_command VIDEO_WALL_MODE (map to_byte [1; h; v; hp; vp])
           true m)
  /\ map byte_val (map to_byte [1; h; v; hp; vp]) = [1; h; v; hp; vp].
Proof.
  intros Hh Hv Hin.
  destruct (display_mapping_in h v display_ids id hp vp
              ltac:(lia) ltac:(lia) Hin) as [Fh Fv].
  split.
  - rewrite set_video_wall_mode_valid by lia. cbv zeta.
    destruct (send_command VIDEO_WALL_MODE _ true m) as [result m'].
    destruct (success result); reflexivity.
  - assert (B : forall x, 0 <= x <= 255 -> byte_val (to_byte x) = x).
    { intros x Hx. unfold to_byte.
      destruct (pack_B_some x Hx) as (b & E & V). rewrite E. exact V. }
    cbn [map]. rewrite !B by lia. reflexivity.
Qed.
End LayoutFacts.

Lemma layout_positions_are_accepted_witness :
  fst (set_video_wall_mode true 2 2 2 1
         (boot (new_controller 12) warm_display))
  = fst (send_command VIDEO_WALL_MODE (map to_byte [1; 2; 2; 2; 1]) true
           (boot (new_controller 12) warm_display))
  /\ map byte_val (map to_byte [1; 2; 2; 2; 1]) = [1; 2; 2; 2; 1].
Proof.
  apply (layout_positions_are_accepted 2 2 [11; 12; 13; 14; 15] 12 2 1
           (boot (new_controller 12) warm_display)); try lia.
  vm_compute. right. left. reflexivity.
Defined.

(** * Concrete runs of the further properties *)

Lemma no_attempt_without_budget_witness :
  send_command POWER [x01] true (boot without_budget warm_display)
  = (Failure "Command POWER failed after 0 attempts",
     update (with_status (with_responsive false))
       (boot without_budget warm_display)).
Proof.
  apply (no_attempt_without_budget POWER [x01] true
           (boot without_budget warm_display)).
  cbn. lia.
Defined.

Lemma returned_response_was_read_witness :
  let m := boot (new_controller 1) warm_display in
  let m' := snd (send_command POWER_STATUS [] true m) in
  1 = display_id (ctl m)
  /\ snd (_parse_mdc_response (ctl m) power_is_on)
     = Parsed 0xF1 [x01] 1 power_is_on
  /\ In (EvRead (ReadBytes power_is_on)) (events m')
  /\ connected (ctl m') = true.
Proof.
  apply (returned_response_was_read POWER_STATUS [] true
           (boot (new_controller 1) warm_display)
           0xF1 [x01] 1 power_is_on).
  vm_compute. reflexivity.
Defined.

Lemma unencodable_command_never_written_witness :
  let m := boot (new_controller 300) warm_display in
  let m' := snd (send_command POWER [x01] true m) in
  success (fst (send_command POWER [x01] true m)) = false
  /\ count is_write (events m') = count is_write (events m)
  /\ count is_read (events m') = count is_read (events m).
Proof.
  apply (unencodable_command_never_written POWER [x01] true
           (boot (new_controller 300) warm_display)).
  right. left. cbn. lia.
Defined.

Lemma get_after_set_witness :
  exists config',
    VideoWallConfig.set sample_defaults "monitoring.max_error_count"
      (Scalar 7) = Some config'
    /\ VideoWallConfig.get config' "monitoring.max_error_count" (Scalar 0)
       = Scalar 7.
Proof.
  eexists. split; [vm_compute; reflexivity|].
  apply (get_after_set sample_defaults _ "monitoring.max_error_count"
           (Scalar 7) (Scalar 0)).
  vm_compute. reflexivity.
Defined.

Lemma set_keeps_other_paths_witness :
  exists config',
    VideoWallConfig.set sample_defaults "monitoring.max_error_count"
      (Scalar 7) = Some config'
    /\ VideoWallConfig.get config' "monitoring.health_check_interval"
         (Scalar 0)
       = VideoWallConfig.get sample_defaults
           "monitoring.health_check_interval" (Scalar 0).
Proof.
  eexists. split; [vm_compute; reflexivity|].
  apply (set_keeps_other_paths sample_defaults _
           "monitoring.max_error_count" "monitoring.health_check_interval"
           ["monitoring"%string] "max_error_count" "health_check_interval"
           [] [] (Scalar 7) (Scalar 0)).
  - vm_compute. reflexivity.
  - vm_compute. reflexivity.
  - discriminate.
  - vm_compute. reflexivity.
Defined.

Lemma sample_file_well_formed : WellFormed (Mapping sample_file).
Proof.
  apply wf_mapping.
  - cbn. constructor; [intros []|constructor].
  - intros k v [E|[]]. inversion E; subst. apply wf_mapping.
    + cbn. constructor; [intros []|constructor].
    + intros k' v' [E'|[]]. inversion E'; subst. apply wf_scalar.
Qed.

Lemma merged_value_wins_witness :
  VideoWallConfig.get
    (VideoWallConfig._deep_merge sample_defaults sample_file)
    "monitoring.max_error_count" (Scalar 0)
  = Scalar 9.
Proof.
  apply (merged_value_wins sample_defaults sample_file
           "monitoring.max_error_count" 9 (Scalar 0)).
  - exact sample_file_well_formed.
  - vm_compute. reflexivity.
Defined.

Lemma unmentioned_key_keeps_default_witness :
  VideoWallConfig.get
    (VideoWallConfig._deep_merge sample_defaults sample_file)
    "server.port" (Scalar 0)
  = VideoWallConfig.get sample_defaults "server.port" (Scalar 0).
Proof.
  apply (unmentioned_key_keeps_default sample_defaults sample_file
           "server.port" "server" ["port"%string] (Scalar 0)).
  - vm_compute. reflexivity.
  - vm_compute. reflexivity.
Defined.

(** The merge of the sample file into the sample defaults, in full: the
    one value the file gives is replaced, in place, and the rest stays. *)
Example merge_sample :
  VideoWallConfig._deep_merge sample_defaults sample_file
  = [("server", Mapping [("port", Scalar 5000)]);
     ("monitoring",
      Mapping [("health_check_interval", Scalar 30);
               ("max_error_count", Scalar 9)])]%string.
Proof. vm_compute. reflexivity. Qed.

(** Four displays can be laid out as 1x4, 2x2 or 4x1; eleven displays
    cannot be laid out at all. *)
Example layouts_of_four_and_eleven :
  layout_grids 4 = [(1, 4); (2, 2); (4, 1)] /\ layout_grids 11 = [].
Proof. vm_compute. split; reflexivity. Qed.
